(** * rtsp-stream: the HTTP routing layer ([core/routing.go])

    A shallow embedding of the request-validation, key-derivation and
    router-construction code of [core/routing.go], together with the
    properties the design document states about it.

    Go strings are byte sequences: they are embedded as [string] (a list of
    8-bit [ascii] characters).  A Go [error] that is only tested against
    [nil] is embedded as [option string] ([None] is [nil]); a function that
    can panic returns an [outcome]. *)

From Stdlib Require Import ZArith NArith Lia List Ascii String.
From stdpp Require Import gmap strings list.
Import ListNotations.

#[local] Open Scope list_scope.
#[local] Set Warnings "-register-all".

(** ** Results of Go calls *)

(** A Go run-time panic, as far as this file meets one. *)
Variant panic : Type :=
| IndexOutOfRange (index len : nat).

(** What a call of a Go function yields: it returns, or it panics. *)
Variant outcome (A : Type) : Type :=
| Returns (a : A)
| Panics (p : panic).
Arguments Returns {A} a.
Arguments Panics {A} p.

(** A Go [(T, error)] pair of which exactly one side is meaningful. *)
Variant result (A : Type) : Type :=
| Ok (a : A)
| Err (msg : string).
Arguments Ok {A} a.
Arguments Err {A} msg.

Definition is_err {A} (r : result A) : bool :=
  match r with Ok _ => false | Err _ => true end.

(** ** Bytes *)

Definition byte_of (c : ascii) : N := N_of_ascii c.
Definition chr (n : N) : ascii := ascii_of_N n.

(** The one-byte string [c]. *)
Definition str1 (c : ascii) : string := String c EmptyString.

(** The double quote, which a string literal of this file cannot hold. *)
Definition dquote : ascii := chr 34.

Definition in_range (lo hi b : N) : bool := (lo <=? b)%N && (b <=? hi)%N.
Definition is_alpha (c : N) : bool := in_range 97 122 c || in_range 65 90 c.
Definition is_digit (c : N) : bool := in_range 48 57 c.

(** [ishex] and [unhex], which [net/url] and [encoding/json] each define. *)
Definition ishex (c : N) : bool :=
  is_digit c || in_range 97 102 c || in_range 65 70 c.
Definition unhex (ch : ascii) : N :=
  let c := byte_of ch in
  (if is_digit c then c - 48
   else if in_range 97 102 c then c - 97 + 10
   else if in_range 65 70 c then c - 65 + 10
   else 0)%N.

(** [c] is one of the bytes of [set]. *)
Definition byte_in (set : string) (c : ascii) : bool :=
  existsb (Ascii.eqb c) (list_ascii_of_string set).

Fixpoint drop_bytes (n : nat) (s : string) : string :=
  match n, s with
  | 0, _ => s
  | S _, EmptyString => EmptyString
  | S n', String _ s' => drop_bytes n' s'
  end.

Fixpoint take_bytes (n : nat) (s : string) : string :=
  match n, s with
  | 0, _ => EmptyString
  | S _, EmptyString => EmptyString
  | S n', String c s' => String c (take_bytes n' s')
  end.

(** ** Package [unicode/utf8] *)
Module utf8.

Definition RuneError : N := 65533.

(** [s[i]] for the decoder, which has checked [i < len(s)] before. *)
Definition at_ (s : string) (i : nat) : N :=
  match String.get i s with Some c => byte_of c | None => 0 end.

(** [first[s0]] and [acceptRanges]: the length of the sequence a leading
    byte starts and the range its second byte must lie in; [None] for a
    byte that starts no sequence (the table's [xx]). *)
Definition lead (s0 : N) : option (nat * N * N) :=
  (if in_range 194 223 s0 then Some (2%nat, 128, 191)
   else if s0 =? 224 then Some (3%nat, 160, 191)
   else if in_range 225 236 s0 then Some (3%nat, 128, 191)
   else if s0 =? 237 then Some (3%nat, 128, 159)
   else if in_range 238 239 s0 then Some (3%nat, 128, 191)
   else if s0 =? 240 then Some (4%nat, 144, 191)
   else if in_range 241 243 s0 then Some (4%nat, 128, 191)
   else if s0 =? 244 then Some (4%nat, 128, 143)
   else None)%N.

(** [utf8.DecodeRuneInString]: the first rune of [s] and its width in
    bytes; [(RuneError, 0)] on the empty string and [(RuneError, 1)] on a
    byte that starts no well-formed sequence. *)
Definition DecodeRuneInString (s : string) : N * nat :=
  match s with
  | EmptyString => (RuneError, 0)
  | String c0 _ =>
    let s0 := byte_of c0 in
    if (s0 <? 128)%N then (s0, 1)
    else match lead s0 with
    | None => (RuneError, 1)
    | Some (sz, lo, hi) =>
      if String.length s <? sz then (RuneError, 1)
      else
        let s1 := at_ s 1 in
        if negb (in_range lo hi s1) then (RuneError, 1)
        else if sz <=? 2 then
          (N.lor (N.shiftl (N.land s0 31) 6) (N.land s1 63), 2)
        else
          let s2 := at_ s 2 in
          if negb (in_range 128 191 s2) then (RuneError, 1)
          else if sz <=? 3 then
            (N.lor (N.lor (N.shiftl (N.land s0 15) 12)
                          (N.shiftl (N.land s1 63) 6))
                   (N.land s2 63), 3)
          else
            let s3 := at_ s 3 in
            if negb (in_range 128 191 s3) then (RuneError, 1)
            else
              (N.lor (N.lor (N.lor (N.shiftl (N.land s0 7) 18)
                                   (N.shiftl (N.land s1 63) 12))
                            (N.shiftl (N.land s2 63) 6))
                     (N.land s3 63), 4)
    end
  end.

(** [utf8.AppendRune] on the empty slice: the UTF-8 encoding of [r];
    surrogates and values past U+10FFFF encode as U+FFFD. *)
Definition EncodeRune (r : N) : string :=
  let cont (x : N) := chr (N.lor 128 (N.land x 63)) in
  if (r <=? 127)%N then str1 (chr r)
  else if (r <=? 2047)%N then
    String (chr (N.lor 192 (N.shiftr r 6))) (str1 (cont r))
  else if (1114111 <? r)%N || in_range 55296 57343 r then
    String (chr 239) (String (chr 191) (str1 (chr 189)))
  else if (r <=? 65535)%N then
    String (chr (N.lor 224 (N.shiftr r 12)))
      (String (cont (N.shiftr r 6)) (str1 (cont r)))
  else
    String (chr (N.lor 240 (N.shiftr r 18)))
      (String (cont (N.shiftr r 12))
         (String (cont (N.shiftr r 6)) (str1 (cont r)))).

End utf8.

(** ** Package [strings] *)
Module strings.

Definition HasPrefix (s prefix : string) : bool := String.prefix prefix s.

(** [strings.Index]: the offset of the first occurrence of [substr] in
    [s]; [None] is Go's [-1]. *)
Fixpoint Index (s substr : string) : option nat :=
  if HasPrefix s substr then Some 0
  else match s with
  | EmptyString => None
  | String _ s' => option_map S (Index s' substr)
  end.

Definition Contains (s substr : string) : bool :=
  match Index s substr with Some _ => true | None => false end.

(** [strings.LastIndex]: the offset of the last occurrence. *)
Fixpoint LastIndex (s substr : string) : option nat :=
  let here := if HasPrefix s substr then Some 0 else None in
  match s with
  | EmptyString => here
  | String _ s' =>
    match LastIndex s' substr with
    | Some i => Some (S i)
    | None => here
    end
  end.

(** [strings.Cut]: [s] around the first [sep]; [(s, EmptyString, false)]
    when [sep] does not occur. *)
Definition Cut (s sep : string) : string * string * bool :=
  match Index s sep with
  | Some i => (take_bytes i s, drop_bytes (i + String.length sep) s, true)
  | None => (s, EmptyString, false)
  end.

(** [explode]: [s] cut into its UTF-8 sequences; an ill-formed byte is a
    piece of its own, kept as it is. *)
Fixpoint explode (fuel : nat) (s : string) : list string :=
  match fuel, s with
  | _, EmptyString => []
  | 0, _ => [s]
  | S fuel', _ =>
    let '(_, size) := utf8.DecodeRuneInString s in
    take_bytes size s :: explode fuel' (drop_bytes size s)
  end.

(** The loop of [genSplit] for a separator that is not empty and no limit
    on the number of pieces: cut at each occurrence of [sep], left to
    right.  Every round drops at least one byte of [s], so [fuel] at least
    the length of [s] runs the loop to its end. *)
Fixpoint genSplit (fuel : nat) (s sep : string) : list string :=
  match fuel with
  | 0 => [s]
  | S fuel' =>
    match Index s sep with
    | None => [s]
    | Some m =>
      take_bytes m s :: genSplit fuel' (drop_bytes (m + String.length sep) s) sep
    end
  end.

(** [strings.Split]. *)
Definition Split (s sep : string) : list string :=
  match sep with
  | EmptyString => explode (String.length s) s
  | _ => genSplit (String.length s) s sep
  end.

End strings.

(** ** The wire types of [core/routing.go] *)

(** [streamDto] describes an uri where the client can access the stream. *)
Record streamDto : Type := { URI : string }.

(** [summariseDto] describes each stream and their state of running. *)
Record summariseDto : Type := { Running : bool; summarise_URI : string }.

(** ** Package [encoding/json]

    [json.Unmarshal] into a [*streamDto] and [json.Marshal] of a
    [streamDto] (Go 1.21).  Of an error of the decoder only that there is
    one is modelled: the message of a [*SyntaxError] depends on where the
    scan stopped and on the byte it stopped at, and every such error
    stands here under the one text [json: syntax error], which is none of
    Go's. *)
Module json.

Inductive value : Type :=
| Null
| Bool (b : bool)
| Number (literal : string)
| Str (s : string)
| Array (elems : list value)
| Object (members : list (string * value)).

(** The scanner's bound on nested arrays and objects. *)
Definition maxNestingDepth : N := 10000.

Definition isSpace (c : ascii) : bool :=
  let b := byte_of c in
  ((b =? 32) || (b =? 9) || (b =? 13) || (b =? 10))%N.

Fixpoint skip_space (s : string) : string :=
  match s with
  | String c s' => if isSpace c then skip_space s' else s
  | EmptyString => s
  end.

(** [getu4]: the code unit of a [\uXXXX] escape that [s] starts with. *)
Definition getu4 (s : string) : option N :=
  match s with
  | String b (String u (String h1 (String h2 (String h3 (String h4 _))))) =>
    if Ascii.eqb b "\" && Ascii.eqb u "u"
       && forallb (fun h => ishex (byte_of h)) [h1; h2; h3; h4]
    then Some (unhex h1 * 4096 + unhex h2 * 256 + unhex h3 * 16 + unhex h4)%N
    else None
  | _ => None
  end.

(** [utf16.DecodeRune]. *)
Definition utf16_DecodeRune (r1 r2 : N) : N :=
  if in_range 55296 56319 r1 && in_range 56320 57343 r2
  then ((r1 - 55296) * 1024 + (r2 - 56320) + 65536)%N
  else utf8.RuneError.

(** What an escape that starts at the backslash [s] stands for, and how
    many bytes follow the backslash in it. *)
Definition unescape (s : string) : option (string * nat) :=
  match s with
  | String _ (String c after) =>
    if byte_in "\/" c || Ascii.eqb c dquote then Some (str1 c, 1)
    else if Ascii.eqb c "b" then Some (str1 (chr 8), 1)
    else if Ascii.eqb c "f" then Some (str1 (chr 12), 1)
    else if Ascii.eqb c "n" then Some (str1 (chr 10), 1)
    else if Ascii.eqb c "r" then Some (str1 (chr 13), 1)
    else if Ascii.eqb c "t" then Some (str1 (chr 9), 1)
    else if Ascii.eqb c "u" then
      match getu4 s with
      | None => None
      | Some rr =>
        if in_range 55296 57343 rr then
          let dec :=
            match getu4 (drop_bytes 6 s) with
            | Some rr1 => utf16_DecodeRune rr rr1
            | None => utf8.RuneError
            end in
          if (dec =? utf8.RuneError)%N
          then Some (utf8.EncodeRune utf8.RuneError, 5)
          else Some (utf8.EncodeRune dec, 11)
        else Some (utf8.EncodeRune rr, 5)
      end
    else None
  | _ => None
  end.

(** A string literal after its opening quote: the scanner's check and
    [unquote] in one pass.  Yields the string the literal denotes and the
    input after the closing quote.  [skip] counts the bytes of an escape
    or of a UTF-8 sequence that are still to be passed over; an ill-formed
    byte becomes U+FFFD. *)
Fixpoint string_literal (s : string) (skip : nat) : option (string * string) :=
  match s with
  | EmptyString => None
  | String c s' =>
    match skip with
    | S k => string_literal s' k
    | 0 =>
      let emit (bytes : string) (k : nat) :=
        match string_literal s' k with
        | Some (str, rest) => Some (String.append bytes str, rest)
        | None => None
        end in
      if Ascii.eqb c dquote then Some (EmptyString, s')
      else if Ascii.eqb c "\" then
        match unescape s with
        | Some (bytes, k) => emit bytes k
        | None => None
        end
      else if (byte_of c <? 32)%N then None
      else if (byte_of c <? 128)%N then emit (str1 c) 0
      else
        let '(rr, size) := utf8.DecodeRuneInString s in
        emit (utf8.EncodeRune rr) (size - 1)
    end
  end.

Fixpoint span_digits (s : string) : string * string :=
  match s with
  | String c s' =>
    if is_digit (byte_of c)
    then let '(ds, rest) := span_digits s' in (String c ds, rest)
    else (EmptyString, s)
  | EmptyString => (EmptyString, s)
  end.

(** At least one digit. *)
Definition digits1 (s : string) : option (string * string) :=
  match span_digits s with
  | (EmptyString, _) => None
  | (ds, rest) => Some (ds, rest)
  end.

(** A number literal: an optional minus sign, then [0] or a run of digits
    that starts with none, an optional fraction (a dot and digits) and an
    optional exponent ([e] or [E], an optional sign, digits). *)
Definition number_literal (s : string) : option (string * string) :=
  let '(sign, s1) :=
    match s with
    | String "-" r => ("-", r)
    | _ => (EmptyString, s)
    end in
  let int_part :=
    match s1 with
    | String "0" r => Some ("0", r)
    | _ => digits1 s1
    end in
  match int_part with
  | None => None
  | Some (ip, s2) =>
    let frac :=
      match s2 with
      | String "." r =>
        match digits1 r with
        | Some (ds, r') => Some (String.append "." ds, r')
        | None => None
        end
      | _ => Some (EmptyString, s2)
      end in
    match frac with
    | None => None
    | Some (fp, s3) =>
      let exp :=
        match s3 with
        | String e r =>
          if byte_in "eE" e then
            let '(esign, r1) :=
              match r with
              | String x r' => if byte_in "+-" x then (str1 x, r') else (EmptyString, r)
              | EmptyString => (EmptyString, r)
              end in
            match digits1 r1 with
            | Some (ds, r') => Some (String e (String.append esign ds), r')
            | None => None
            end
          else Some (EmptyString, s3)
        | EmptyString => Some (EmptyString, s3)
        end in
      match exp with
      | None => None
      | Some (ep, s4) =>
        Some (String.append sign (String.append ip (String.append fp ep)), s4)
      end
    end
  end.

(** [s] without the prefix [word], when it starts with it. *)
Definition after_word (word s : string) : option string :=
  if strings.HasPrefix s word then Some (drop_bytes (String.length word) s)
  else None.

(** The scanner and the decoder's walk over one value, as a parser: the
    value that [s] starts with and the input after it, [None] on a syntax
    error.  [depth] counts the arrays and objects around the value.  Every
    call has passed over a byte of the input more than the call before it,
    so [fuel] past the length of the input is never used up. *)
Fixpoint parse_value (fuel : nat) (depth : N) (s : string) : option (value * string) :=
  match fuel with
  | 0 => None
  | S fuel' =>
    match skip_space s with
    | EmptyString => None
    | String c r =>
      if Ascii.eqb c "{" then
        if (maxNestingDepth <=? depth)%N then None
        else match skip_space r with
        | String "}" r' => Some (Object [], r')
        | r' => parse_members fuel' (depth + 1) r' []
        end
      else if Ascii.eqb c "[" then
        if (maxNestingDepth <=? depth)%N then None
        else match skip_space r with
        | String "]" r' => Some (Array [], r')
        | r' => parse_elements fuel' (depth + 1) r' []
        end
      else if Ascii.eqb c dquote then
        match string_literal r 0 with
        | Some (str, r') => Some (Str str, r')
        | None => None
        end
      else if Ascii.eqb c "t" then option_map (pair (Bool true)) (after_word "rue" r)
      else if Ascii.eqb c "f" then option_map (pair (Bool false)) (after_word "alse" r)
      else if Ascii.eqb c "n" then option_map (pair Null) (after_word "ull" r)
      else match number_literal (String c r) with
      | Some (lit, r') => Some (Number lit, r')
      | None => None
      end
    end
  end
with parse_members (fuel : nat) (depth : N) (s : string) (acc : list (string * value))
  : option (value * string) :=
  match fuel with
  | 0 => None
  | S fuel' =>
    match skip_space s with
    | String q r =>
      if negb (Ascii.eqb q dquote) then None
      else match string_literal r 0 with
      | None => None
      | Some (key, r1) =>
        match skip_space r1 with
        | String ":" r2 =>
          match parse_value fuel' depth r2 with
          | None => None
          | Some (v, r3) =>
            match skip_space r3 with
            | String "," r4 => parse_members fuel' depth r4 ((key, v) :: acc)
            | String "}" r4 => Some (Object (rev ((key, v) :: acc)), r4)
            | _ => None
            end
          end
        | _ => None
        end
      end
    | EmptyString => None
    end
  end
with parse_elements (fuel : nat) (depth : N) (s : string) (acc : list value)
  : option (value * string) :=
  match fuel with
  | 0 => None
  | S fuel' =>
    match parse_value fuel' depth s with
    | None => None
    | Some (v, r) =>
      match skip_space r with
      | String "," r' => parse_elements fuel' depth r' (v :: acc)
      | String "]" r' => Some (Array (rev (v :: acc)), r')
      | _ => None
      end
    end
  end.

(** [checkValid] and the scan of the decoder: the one value that [data]
    holds, with nothing but space around it. *)
Definition parse (data : string) : option value :=
  match parse_value (S (String.length data)) 0 data with
  | Some (v, rest) =>
    match skip_space rest with
    | EmptyString => Some v
    | _ => None
    end
  | None => None
  end.

Definition upper (c : ascii) : ascii :=
  if in_range 97 122 (byte_of c) then chr (byte_of c - 32) else c.

Fixpoint fold_ascii (s : string) : string :=
  match s with
  | EmptyString => EmptyString
  | String c s' => String (upper c) (fold_ascii s')
  end.

(** A key of the input names the struct field [name] when the two are
    equal, or equal once folded ([foldName]; for a field name of ASCII
    letters other than [k] and [s] that is equality up to ASCII case). *)
Definition names_field (name key : string) : bool :=
  String.eqb key name || String.eqb (fold_ascii key) (fold_ascii name).

(** The kind of a value, as [UnmarshalTypeError] names it. *)
Definition kind_of (v : value) : string :=
  match v with
  | Null => "null"
  | Bool _ => "bool"
  | Number _ => "number"
  | Str _ => "string"
  | Array _ => "array"
  | Object _ => "object"
  end.

(** The first error is the one that is kept ([saveError]). *)
Definition saveError (saved : option string) (e : string) : option string :=
  match saved with
  | Some _ => saved
  | None => Some e
  end.

(** One member of the input object stored into a [streamDto]: a string
    for the field [uri] is stored, [null] leaves the field as it is, any
    other value for it is a type error after which decoding goes on, and
    a key that names no field is skipped. *)
Definition store_member (st : streamDto * option string) (m : string * value)
  : streamDto * option string :=
  let '(dto, saved) := st in
  let '(key, v) := m in
  if names_field "uri" key then
    match v with
    | Str s => ({| URI := s |}, saved)
    | Null => (dto, saved)
    | _ =>
      (dto, saveError saved
              (String.append "json: cannot unmarshal "
                 (String.append (kind_of v)
                    " into Go struct field streamDto.uri of type string")))
    end
  else (dto, saved).

(** [json.Unmarshal(data, dto)] for [dto *streamDto]: what [*dto] holds
    afterwards, and the error.  A syntax error leaves [*dto] as it was. *)
Definition Unmarshal (data : string) (dto : streamDto) : streamDto * option string :=
  match parse data with
  | None => (dto, Some "json: syntax error")
  | Some (Object members) => fold_left store_member members (dto, None)
  | Some Null => (dto, None)
  | Some v =>
    (dto, Some (String.append "json: cannot unmarshal "
                  (String.append (kind_of v) " into Go value of type core.streamDto")))
  end.

Definition hex_digit (n : N) : ascii :=
  if (n <? 10)%N then chr (48 + n) else chr (87 + n).

(** [appendString] with HTML escaping on: the string literal for [src].
    [copy] counts the bytes of a UTF-8 sequence that are still to be
    copied, [drop] those of a sequence written as an escape. *)
Fixpoint quoted_from (src : string) (copy drop : nat) : string :=
  match src with
  | EmptyString => str1 dquote
  | String c rest =>
    match drop, copy with
    | S d, _ => quoted_from rest copy d
    | 0, S k => String c (quoted_from rest k 0)
    | 0, 0 =>
      let b := byte_of c in
      let u00 (tail : string) :=
        String.append "\u00"
          (String (hex_digit (N.shiftr b 4)) (String (hex_digit (N.land b 15)) tail)) in
      if (b <? 128)%N then
        if Ascii.eqb c dquote || Ascii.eqb c "\"
        then String "\" (String c (quoted_from rest 0 0))
        else if (b =? 10)%N then String.append "\n" (quoted_from rest 0 0)
        else if (b =? 13)%N then String.append "\r" (quoted_from rest 0 0)
        else if (b =? 9)%N then String.append "\t" (quoted_from rest 0 0)
        else if (b <? 32)%N || byte_in "<>&" c then u00 (quoted_from rest 0 0)
        else String c (quoted_from rest 0 0)
      else
        let '(r, size) := utf8.DecodeRuneInString src in
        if (r =? utf8.RuneError)%N && (size =? 1) then
          String.append "\ufffd" (quoted_from rest 0 0)
        else if (r =? 8232)%N || (r =? 8233)%N then
          String.append "\u202"
            (String (hex_digit (N.land r 15)) (quoted_from rest 0 (size - 1)))
        else String c (quoted_from rest (size - 1) 0)
    end
  end.

(** [json.Marshal(v)] for [v streamDto]: an object with the one member
    [uri].  No value of the type makes the encoder fail. *)
Definition Marshal (v : streamDto) : result string :=
  Ok (String.append (String "{" (String dquote (String.append "uri" (String dquote ":"))))
        (String dquote (String.append (quoted_from (URI v) 0 0) "}"))).

End json.

(** ** Package [net/url]

    The error behaviour of [url.Parse] (Go 1.21).  The caller in
    [routing.go] drops the parsed [*URL] and only tests the error, so the
    functions below return the error alone: [None] is [nil]. *)
Module url.

(** [stringContainsCTLByte]. *)
Definition stringContainsCTLByte (s : string) : bool :=
  existsb (fun c => (byte_of c <? 32)%N || (byte_of c =? 127)%N)
          (list_ascii_of_string s).

(** [getScheme]: the scheme and what follows its colon; the scheme is
    empty when the text starts with none. *)
Fixpoint getScheme_from (i : nat) (rawURL rest : string) : result (string * string) :=
  match rest with
  | EmptyString => Ok (EmptyString, rawURL)
  | String ch rest' =>
    let c := byte_of ch in
    if is_alpha c then getScheme_from (S i) rawURL rest'
    else if is_digit c || byte_in "+-." ch then
      if i =? 0 then Ok (EmptyString, rawURL)
      else getScheme_from (S i) rawURL rest'
    else if (c =? 58)%N then
      if i =? 0 then Err "missing protocol scheme"
      else Ok (take_bytes i rawURL, rest')
    else Ok (EmptyString, rawURL)
  end.

Definition getScheme (rawURL : string) : result (string * string) :=
  getScheme_from 0 rawURL rawURL.

(** [shouldEscape(c, encodeHost)]: the bytes a host may not hold. *)
Definition shouldEscape_host (ch : ascii) : bool :=
  let c := byte_of ch in
  if is_alpha c || is_digit c then false
  else if byte_in "!$&'()*+,;=:[]<>" ch || Ascii.eqb ch dquote then false
  else if byte_in "-_.~" ch then false
  else true.

Variant encoding : Type :=
| encodePath | encodeHost | encodeZone | encodeUserPassword | encodeFragment.

Definition is_host_mode (mode : encoding) : bool :=
  match mode with encodeHost | encodeZone => true | _ => false end.

(** The checking pass of [unescape]: every [%] starts a well-formed
    escape, and a host or zone holds only what these may hold. *)
Fixpoint unescape_check (s : string) (mode : encoding) : option string :=
  match s with
  | EmptyString => None
  | String ch s' =>
    if Ascii.eqb ch "%" then
      match s' with
      | String h1 (String h2 s'') =>
        if negb (ishex (byte_of h1) && ishex (byte_of h2)) then
          Some "invalid URL escape"
        else
          let is25 := Ascii.eqb h1 "2" && Ascii.eqb h2 "5" in
          let v := chr (N.lor (N.shiftl (unhex h1) 4) (unhex h2)) in
          match mode with
          | encodeHost =>
            if (unhex h1 <? 8)%N && negb is25 then Some "invalid URL escape"
            else unescape_check s'' mode
          | encodeZone =>
            if negb is25 && negb (Ascii.eqb v " ") && shouldEscape_host v
            then Some "invalid URL escape"
            else unescape_check s'' mode
          | _ => unescape_check s'' mode
          end
      | _ => Some "invalid URL escape"
      end
    else if is_host_mode mode && (byte_of ch <? 128)%N && shouldEscape_host ch
    then Some "invalid character in host name"
    else unescape_check s' mode
  end.

(** [validOptionalPort]. *)
Definition validOptionalPort (port : string) : bool :=
  match port with
  | EmptyString => true
  | String c digits =>
    Ascii.eqb c ":" &&
    forallb (fun d => is_digit (byte_of d)) (list_ascii_of_string digits)
  end.

(** [validUserinfo]. *)
Definition validUserinfo (s : string) : bool :=
  forallb (fun ch => is_alpha (byte_of ch) || is_digit (byte_of ch)
                     || byte_in "-._:~!$&'()*+,;=%@" ch)
          (list_ascii_of_string s).

(** The first error of a list of checks, in order. *)
Fixpoint first_error (checks : list (option string)) : option string :=
  match checks with
  | [] => None
  | Some e :: _ => Some e
  | None :: rest => first_error rest
  end.

(** [parseHost]. *)
Definition parseHost (host : string) : option string :=
  let plain := unescape_check host encodeHost in
  if strings.HasPrefix host "[" then
    match strings.LastIndex host "]" with
    | None => Some "missing ']' in host"
    | Some i =>
      if negb (validOptionalPort (drop_bytes (i + 1) host)) then
        Some "invalid port after host"
      else
        match strings.Index (take_bytes i host) "%25" with
        | Some zone =>
          first_error
            [ unescape_check (take_bytes zone host) encodeHost;
              unescape_check (drop_bytes zone (take_bytes i host)) encodeZone;
              unescape_check (drop_bytes i host) encodeHost ]
        | None => plain
        end
    end
  else
    match strings.LastIndex host ":" with
    | Some i =>
      if negb (validOptionalPort (drop_bytes i host)) then
        Some "invalid port after host"
      else plain
    | None => plain
    end.

(** [parseAuthority]. *)
Definition parseAuthority (authority : string) : option string :=
  match strings.LastIndex authority "@" with
  | None => parseHost authority
  | Some i =>
    match parseHost (drop_bytes (i + 1) authority) with
    | Some e => Some e
    | None =>
      let userinfo := take_bytes i authority in
      if negb (validUserinfo userinfo) then Some "net/url: invalid userinfo"
      else if negb (strings.Contains userinfo ":") then
        unescape_check userinfo encodeUserPassword
      else
        let '(username, password, _) := strings.Cut userinfo ":" in
        first_error [ unescape_check username encodeUserPassword;
                      unescape_check password encodeUserPassword ]
    end
  end.

(** [parse(rawURL, false)]. *)
Definition parse (rawURL : string) : option string :=
  if stringContainsCTLByte rawURL then
    Some "net/url: invalid control character in URL"
  else if String.eqb rawURL "*" then None
  else
    match getScheme rawURL with
    | Err e => Some e
    | Ok (scheme, rest) =>
      let '(rest, _, _) := strings.Cut rest "?" in
      let has_scheme := negb (String.eqb scheme EmptyString) in
      if negb (strings.HasPrefix rest "/") && has_scheme then None
      else if negb (strings.HasPrefix rest "/")
              && strings.Contains (fst (fst (strings.Cut rest "/"))) ":"
      then Some "first path segment in URL cannot contain colon"
      else if (has_scheme || negb (strings.HasPrefix rest "///"))
              && strings.HasPrefix rest "//"
      then
        let authority := drop_bytes 2 rest in
        let '(authority, rest) :=
          match strings.Index authority "/" with
          | Some i => (take_bytes i authority, drop_bytes i authority)
          | None => (authority, EmptyString)
          end in
        first_error [ parseAuthority authority; unescape_check rest encodePath ]
      else unescape_check rest encodePath
    end.

(** [url.Parse]: the fragment is cut off at the first [#] and checked
    after the rest has parsed. *)
Definition Parse (rawURL : string) : option string :=
  let '(u, frag, _) := strings.Cut rawURL "#" in
  match parse u with
  | Some e => Some e
  | None =>
    if String.eqb frag EmptyString then None
    else unescape_check frag encodeFragment
  end.

End url.

(** ** Packages [io] and [net/http] *)

(** An [io.Reader] by what reading it to its end gives: the bytes it
    yields, and the error other than [io.EOF] it ends with, if any. *)
Record Reader : Type := { content : string; failure : option string }.

(** [ioutil.ReadAll]. *)
Definition ReadAll (body : Reader) : result string :=
  match failure body with
  | Some e => Err e
  | None => Ok (content body)
  end.

Module http.

(** [http.Header]: a map from header names to their values, in the order
    they were added. *)
Abbreviation Header := (gmap string (list string)).

Definition Header_Add (h : Header) (key value : string) : Header :=
  <[key := default [] (h !! key) ++ [value]]> h.

Definition Header_Set (h : Header) (key value : string) : Header :=
  <[key := [value]]> h.

(** An [http.ResponseWriter] by its state: the header map the handler
    edits, the status line and headers that went out (none before the
    first [WriteHeader] or [Write]), and the body written so far. *)
Record ResponseWriter : Type := {
  header : Header;
  wroteHeader : option (nat * Header);
  written : string
}.

Definition NewResponseWriter : ResponseWriter :=
  {| header := ∅; wroteHeader := None; written := EmptyString |}.

Definition StatusOK : nat := 200.

(** [w.WriteHeader(code)]: sends the status and the headers as they are
    now; a second call sends nothing. *)
Definition WriteHeader (w : ResponseWriter) (code : nat) : ResponseWriter :=
  match wroteHeader w with
  | Some _ => w
  | None => {| header := header w;
               wroteHeader := Some (code, header w);
               written := written w |}
  end.

(** [w.Write(b)]: sends [200 OK] first when no status went out yet. *)
Definition Write (w : ResponseWriter) (b : string) : ResponseWriter :=
  let w := WriteHeader w StatusOK in
  {| header := header w;
     wroteHeader := wroteHeader w;
     written := String.append (written w) b |}.

Definition Header_edit (w : ResponseWriter) (f : Header -> Header) : ResponseWriter :=
  {| header := f (header w); wroteHeader := wroteHeader w; written := written w |}.

(** [http.Error(w, error, code)]. *)
Definition Error (w : ResponseWriter) (error : string) (code : nat) : ResponseWriter :=
  let w := Header_edit w (fun h => Header_Set h "Content-Type" "text/plain; charset=utf-8") in
  let w := Header_edit w (fun h => Header_Set h "X-Content-Type-Options" "nosniff") in
  let w := WriteHeader w code in
  Write w (String.append error (str1 (chr 10))).

(** The status that went out. *)
Definition status (w : ResponseWriter) : option nat := fst <$> wroteHeader w.

(** The values of a header that went out. *)
Definition sent (w : ResponseWriter) (key : string) : list string :=
  match wroteHeader w with
  | Some (_, h) => default [] (h !! key)
  | None => []
  end.

End http.

(** ** Packages [core/config] and [core/streaming] *)

(** Modelled from the spec: [config.Specification] is declared in
    [core/config], which is not among the sources.  The fields are the
    three that [routing.go] reads, which the spec lists as the storage
    root directory, the boolean toggling the list endpoint and the sweep
    interval (a [time.Duration], in nanoseconds). *)
Record Specification : Type := {
  StoreDir : string;
  ListEndpoint : bool;
  CleanupTime : Z
}.

(** Modelled from the spec: the Streak of [core/streaming], which is not
    among the sources: whether the process is alive, and the time of the
    last activity. *)
Record Streak : Type := { active : bool; last_activity : Z }.

(** Modelled from the spec: [IsActive] is a pure read returning current
    liveness. *)
Definition IsActive (k : Streak) : bool := active k.

(** Modelled from the spec: [streaming.Stream] is declared in
    [core/streaming], which is not among the sources.  It is the spec's
    StreamSession: source locator, serve path, streak, process handle. *)
Record Stream : Type := {
  OriginalURI : string;
  Path : string;
  Stream_Streak : Streak;
  CMD : nat
}.

(** ** [core/routing.go] *)

(** [ErrNoStreamFn] is used to create dynamic errors for unknown hosts
    requested as stream. *)
Definition ErrNoStreamFn (path : string) : string :=
  String.append path " is not a known stream".

(** [ErrStreamAlreadyActive]. *)
Definition ErrStreamAlreadyActive : string := "Stream is already active".

(** [validateURI] is for validating that the URI is in a valid format.
    [dto] is passed by pointer: the result holds what it points to
    afterwards, and the error. *)
Definition validateURI (dto : streamDto) (body : Reader) : streamDto * option string :=
  match ReadAll body with
  | Err err => (dto, Some err)
  | Ok uri =>
    match json.Unmarshal uri dto with
    | (dto, Some err) => (dto, Some err)
    | (dto, None) =>
      match url.Parse (URI dto) with
      | Some _ => (dto, Some "Invalid URI")
      | None => (dto, None)
      end
    end
  end.

(** What a handler does besides writing its response. *)
Variant effect : Type :=
| CallRestart (s : Stream) (dir : string)
| LogError (err : string).

Section handlers.

(** [s.Restart(spec, dir)] of [core/streaming], which is not among the
    sources: the stream as the call leaves it, and the error. *)
Variable Stream_Restart : Stream -> Specification -> string -> Stream * option string.

(** [handleAlreadyRunningStream]: the response written to [w], and the
    calls and log lines on the way, in order. *)
Definition handleAlreadyRunningStream (w : http.ResponseWriter) (s : Stream)
    (spec : Specification) (dir : string) : http.ResponseWriter * list effect :=
  (* If transcoding is not running, spin it back up *)
  let '(s, restart_err, effects) :=
    if negb (IsActive (Stream_Streak s)) then
      let '(s', err) := Stream_Restart s spec dir in
      (s', err, [CallRestart s dir])
    else (s, None, []) in
  match restart_err with
  | Some err =>
    (http.Error w "Unexpected error" 500, effects ++ [LogError err])
  | None =>
    (* If the stream is already running return its path *)
    match json.Marshal {| URI := Path s |} with
    | Err _ => (http.Error w "Unexpected error" 500, effects)
    | Ok b =>
      let w := http.Header_edit w
                 (fun h => http.Header_Add h "Content-Type" "application/json") in
      (http.Write w b, effects)
    end
  end.

End handlers.

(** [determineHost] is for parsing out the host from the storage path.
    [parts[1]] is a checked index: Go panics when [len(parts)] is [1]. *)
Definition determineHost (path : string) : outcome string :=
  let parts := strings.Split path "/" in
  if 1 <=? length parts then
    match parts !! 1 with
    | Some host => Returns host
    | None => Panics (IndexOutOfRange 1 (length parts))
    end
  else Returns EmptyString.

(** *** The controller and the router *)

(** The methods of [Controller] that [GetRouter] registers; their bodies
    are in [core/controller.go], which is not among the sources. *)
Variant handler : Type :=
| ListStreamHandler
| StartStreamHandler
| FileHandler.

Variant method : Type := GET | POST.

(** An [httprouter.Router] by the routes registered on it, in order. *)
Record Route : Type := { route_method : method; route_path : string; route_handler : handler }.
Abbreviation Router := (list Route).

(** [httprouter.New()]. *)
Definition httprouter_New : Router := [].

(** [router.GET(path, h)] and [router.POST(path, h)]. *)
Definition router_Handle (router : Router) (m : method) (path : string) (h : handler) : Router :=
  router ++ [{| route_method := m; route_path := path; route_handler := h |}].

(** [Controller]: the literal in [GetRouter] fills its three fields in
    order: the configuration, the map of streams, the file server (by the
    directory it serves). *)
Record Controller : Type := {
  spec : Specification;
  streams : gmap string Stream;
  fileServer : string
}.

(** *** The cleaning process

    The goroutine that [GetRouter] starts, as a machine: it stands at the
    receive from [time.After] (line 97), at the call of [cleanUnused]
    (line 98), or past the end of its function literal. *)
Variant location : Type :=
| AtAfter
| AtCleanUnused
| Exited.

(** What an observer with a clock sees of the goroutine; times are in
    nanoseconds. *)
Variant event : Type :=
| TimerSet (at_ : Z) (d : Z)
| TimerFired (at_ : Z)
| SweepBegin (at_ : Z)
| SweepEnd (at_ : Z).

(** What the goroutine does not decide: how long after its expiry the
    value of the [n]th timer is received, and how long the [n]th call of
    [cleanUnused] takes.  Neither is negative. *)
Record timing : Type := { lag : nat -> N; sweep_time : nat -> N }.

Record cleaner : Type := {
  pc : location;
  now : Z;
  round : nat;
  controllers : Controller;
  trace : list event
}.

Section cleaning.

(** [controllers.cleanUnused()] of [core/controller.go], which is not
    among the sources: what it does to the controller. *)
Variable cleanUnused : Controller -> Controller.

Variable config : Specification.
Variable env : timing.

(** One step of the loop [for { <-time.After(config.CleanupTime);
    controllers.cleanUnused() }].  [time.After(d)] delivers its value once
    [d] has elapsed, at once when [d] is not positive.  The loop has no
    condition, [break] or [return]: no step leads to [Exited]. *)
Definition cleaner_step (c : cleaner) : cleaner :=
  match pc c with
  | AtAfter =>
    let d := CleanupTime config in
    let fired := (now c + Z.max 0 d + Z.of_N (lag env (round c)))%Z in
    {| pc := AtCleanUnused;
       now := fired;
       round := round c;
       controllers := controllers c;
       trace := trace c ++ [TimerSet (now c) d; TimerFired fired] |}
  | AtCleanUnused =>
    let done := (now c + Z.of_N (sweep_time env (round c)))%Z in
    {| pc := AtAfter;
       now := done;
       round := S (round c);
       controllers := cleanUnused (controllers c);
       trace := trace c ++ [SweepBegin (now c); SweepEnd done] |}
  | Exited => c
  end.

(** The goroutine as the [go] statement starts it at time [t0]. *)
Definition cleaner_start (t0 : Z) (ctl : Controller) : cleaner :=
  {| pc := AtAfter; now := t0; round := 0; controllers := ctl; trace := [] |}.

Definition cleaner_run (n : nat) (c : cleaner) : cleaner :=
  Nat.iter n cleaner_step c.

End cleaning.

(** [GetRouter] returns the router for the application, and the
    controller. *)
Definition GetRouter (config : Specification) : Router * Controller :=
  let fileServer := StoreDir config in
  let router := httprouter_New in
  let controllers := {| spec := config; streams := ∅; fileServer := fileServer |} in
  let router :=
    if ListEndpoint config
    then router_Handle router GET "/list" ListStreamHandler
    else router in
  let router := router_Handle router POST "/start" StartStreamHandler in
  let router := router_Handle router GET "/stream/*filepath" FileHandler in
  (router, controllers).

(** The cleaning process that [GetRouter] starts in the background before
    it returns, when it is called at time [t0]. *)
Definition GetRouter_started (config : Specification) (t0 : Z) : cleaner :=
  cleaner_start t0 (snd (GetRouter config)).

(** ** Calls in the state of the program

    What a function of package [core] can read and write besides its
    arguments: the package-level variables of [routing.go], which are
    declared with [var] and can be assigned to, the streams that the
    controller holds, and the clock.  A call is a function of that state:
    it returns or panics, and leaves a state. *)
Module Go.

Record world : Type := {
  var_ErrNoStreamFn : string -> string;
  var_ErrStreamAlreadyActive : string;
  held_streams : gmap string Stream;
  clock : Z
}.

Definition call (A : Type) : Type := world -> outcome A * world.

#[global] Instance call_ret : MRet call := fun A a σ => (Returns a, σ).

#[global] Instance call_bind : MBind call := fun A B f m σ =>
  match m σ with
  | (Returns a, σ') => f a σ'
  | (Panics p, σ') => (Panics p, σ')
  end.

(** Reading and writing the state, for the statements that do. *)
Definition read {A : Type} (field : world -> A) : call A :=
  fun σ => (Returns (field σ), σ).

Definition write (change : world -> world) : call unit :=
  fun σ => (Returns tt, change σ).

(** [parts[i]]: the element, or the run-time panic of an index out of
    range. *)
Definition index (parts : list string) (i : nat) : call string :=
  fun σ =>
    match parts !! i with
    | Some x => (Returns x, σ)
    | None => (Panics (IndexOutOfRange i (length parts)), σ)
    end.

(** [determineHost], statement by statement. *)
Definition determineHost (path : string) : call string :=
  parts ← mret (strings.Split path "/");
  if 1 <=? length parts then index parts 1
  else mret EmptyString.

End Go.

(** ** Request bodies *)

(** A reader that yields [data] and then ends. *)
Definition reader_of (data : string) : Reader :=
  {| content := data; failure := None |}.

(** [s] between double quotes. *)
Definition quoted (s : string) : string :=
  String dquote (String.append s (str1 dquote)).

(** The body of a start request that names [uri], for a [uri] that needs
    no escaping: an object with the one member [uri]. *)
Definition start_body (uri : string) : string :=
  String.append "{" (String.append (quoted "uri")
    (String.append ":" (String.append (quoted uri) "}"))).

(** The [streamDto] a handler declares with [var dto streamDto]. *)
Definition zero_streamDto : streamDto := {| URI := EmptyString |}.

(** ** Reading a handler's result *)

(** The bytes [json.Marshal] gives for [v]. *)
Definition encoded (v : streamDto) : string :=
  match json.Marshal v with
  | Ok b => b
  | Err _ => EmptyString
  end.



(** The response that carries the serve path [path]: what [w] becomes
    when the handler adds the JSON content type and writes the encoded
    [streamDto]. *)
Definition path_response (w : http.ResponseWriter) (path : string) : http.ResponseWriter :=
  http.Write
    (http.Header_edit w (fun h => http.Header_Add h "Content-Type" "application/json"))
    (encoded {| URI := path |}).

(** A session whose process is alive or not, serving [path]. *)
Definition example_stream (alive : bool) : Stream :=
  {| OriginalURI := "rtsp://cam1/onvif"; Path := "/stream/cam1/index";
     Stream_Streak := {| active := alive; last_activity := 0 |}; CMD := 1 |}.

Definition example_spec : Specification :=
  {| StoreDir := "./videos"; ListEndpoint := true; CleanupTime := 120000000000 |}.

(** The state of the program when the first request comes in, and a
    later one: a session has been started, the clock has gone on, and
    the package-level variables have been assigned to. *)
Definition world_at_start : Go.world :=
  {| Go.var_ErrNoStreamFn := ErrNoStreamFn;
     Go.var_ErrStreamAlreadyActive := ErrStreamAlreadyActive;
     Go.held_streams := ∅;
     Go.clock := 0 |}.

Definition world_later : Go.world :=
  {| Go.var_ErrNoStreamFn := fun _ => "gone";
     Go.var_ErrStreamAlreadyActive := "busy";
     Go.held_streams := {[ "cam1" := example_stream true ]};
     Go.clock := 3600000000000 |}.


(** A call [handleAlreadyRunningStream(w, held, spec, dir)] from the side
    of its caller.  The parameter [s streaming.Stream] is a struct, not a
    pointer, and the function is given neither the map of streams nor the
    controller and has no result: the call copies [held] into [s],
    [Restart] works on the copy, and when the function returns the caller
    holds [held] as it was, while the copy is dropped. *)
Record handled : Type := {
  response : http.ResponseWriter;
  calls : list effect;
  callers_stream : Stream;
  callees_stream : Stream
}.

Definition handleAlreadyRunningStream_call
    (Stream_Restart : Stream -> Specification -> string -> Stream * option string)
    (w : http.ResponseWriter) (held : Stream) (spec : Specification) (dir : string)
  : handled :=
  let s := held in
  let '(w', effects) := handleAlreadyRunningStream Stream_Restart w s spec dir in
  {| response := w';
     calls := effects;
     callers_stream := held;
     callees_stream :=
       if negb (IsActive (Stream_Streak s)) then fst (Stream_Restart s spec dir) else s |}.



(** ** Reading the trace of the cleaning process *)

Definition is_SweepBegin (e : event) : bool :=
  match e with SweepBegin _ => true | _ => false end.

Definition is_SweepEnd (e : event) : bool :=
  match e with SweepEnd _ => true | _ => false end.

(** How many calls of [cleanUnused] have begun, and how many have
    returned, in a trace. *)
Definition sweeps_begun (tr : list event) : nat := length (List.filter is_SweepBegin tr).
Definition sweeps_ended (tr : list event) : nat := length (List.filter is_SweepEnd tr).

(** A timing for examples: every timer value arrives 1 ms late, every
    sweep takes 5 ms. *)
Definition example_timing : timing :=
  {| lag := fun _ => 1000000%N; sweep_time := fun _ => 5000000%N |}.

(** A timing with long sweeps: the timer is on time, every sweep takes
    two minutes. *)
Definition slow_timing : timing :=
  {| lag := fun _ => 0%N; sweep_time := fun _ => 120000000000%N |}.

(** What holds of the cleaning process at every step, for the period
    [d]: it never leaves the loop; every timer is set to [d]; a timer that
    fired is followed by a sweep; a sweep follows a timer that was set at
    least [d] before, and ends before anything else happens; a sweep that
    ended did so before now, and [d] before now once the next timer has
    fired; a sweep that begins after one ended begins at least [d]
    later. *)
Definition cleaner_inv (d : Z) (c : cleaner) : Prop :=
  pc c <> Exited
  /\ (forall i a d', trace c !! i = Some (TimerSet a d') -> d' = d)
  /\ (forall i t, trace c !! i = Some (TimerFired t) ->
        trace c !! S i = Some (SweepBegin t)
        \/ (pc c = AtCleanUnused /\ S i = length (trace c) /\ t = now c))
  /\ (forall i b, trace c !! i = Some (SweepBegin b) ->
        (exists e, trace c !! S i = Some (SweepEnd e) /\ (b <= e)%Z)
        /\ (exists a, 2 <= i /\ trace c !! (i - 2) = Some (TimerSet a d)
                      /\ trace c !! (i - 1) = Some (TimerFired b) /\ (a + d <= b)%Z))
  /\ (forall i a, trace c !! i = Some (SweepEnd a) ->
        (a <= now c)%Z /\ (pc c = AtCleanUnused -> (a + d <= now c)%Z))
  /\ (forall i j a b, i < j ->
        trace c !! i = Some (SweepEnd a) -> trace c !! j = Some (SweepBegin b) ->
        (a + d <= b)%Z /\ (a <= b)%Z)
  /\ (pc c = AtCleanUnused ->
        exists a, 2 <= length (trace c)
                  /\ trace c !! (length (trace c) - 2) = Some (TimerSet a d)
                  /\ trace c !! (length (trace c) - 1) = Some (TimerFired (now c))
                  /\ (a + d <= now c)%Z).

(** ** Texts and bodies for the further properties *)

(** Every byte of [s] is an ASCII one. *)
Fixpoint ascii_only (s : string) : bool :=
  match s with
  | EmptyString => true
  | String c s' => (byte_of c <? 128)%N && ascii_only s'
  end.

(** The byte [ch] does not occur in [s]. *)
Fixpoint lacks (ch : ascii) (s : string) : bool :=
  match s with
  | EmptyString => true
  | String c s' => negb (Ascii.eqb c ch) && lacks ch s'
  end.

(** A body that is an object with the one member [key], a string: key
    and value written as [json.Marshal] writes a string. *)
Definition member_body (key value : string) : string :=
  String "{" (String dquote
    (String.append (json.quoted_from key 0 0)
       (String ":" (String dquote
          (String.append (json.quoted_from value 0 0) "}"))))).

(** A text of printable ASCII bytes without [%], [:], [#] and [?]. *)
Fixpoint plain_text (s : string) : bool :=
  match s with
  | EmptyString => true
  | String c s' =>
    in_range 32 126 (byte_of c) && negb (byte_in "%:#?" c) && plain_text s'
  end.

(** The time the first [k] rounds of the cleaning process take when the
    period is [d]: for each round the wait, which is no wait when [d] is
    not positive, the lag of the timer and the time of the sweep. *)
Fixpoint rounds_time (d : Z) (env : timing) (k : nat) : Z :=
  match k with
  | 0 => 0
  | S k' =>
    rounds_time d env k' + Z.max 0 d
    + Z.of_N (lag env k') + Z.of_N (sweep_time env k')
  end.

(** The error of [validateURI] for a [uri] that was read: the error of
    [url.Parse] is replaced by one text. *)
Definition uri_error (uri : string) : option string :=
  match url.Parse uri with
  | Some _ => Some "Invalid URI"
  | None => None
  end.

(** The text after a [%] does not start with two hexadecimal digits. *)
Definition bad_escape (t : string) : bool :=
  match t with
  | String h1 (String h2 _) => negb (ishex (byte_of h1) && ishex (byte_of h2))
  | _ => true
  end.

(** * Properties *)

(** ** Strings *)

Lemma length_drop_bytes (n : nat) (s : string) :
  String.length (drop_bytes n s) = String.length s - n.
Proof.
  revert s; induction n as [|n IH]; intros [|c s]; simpl; auto with arith.
Qed.

Lemma Index_Some_nonempty (s sep : string) (m : nat) :
  sep <> EmptyString -> strings.Index s sep = Some m -> s <> EmptyString.
Proof.
  intros Hsep H ->. destruct sep as [|c sep]; [congruence|]. discriminate H.
Qed.

(** The first piece of [genSplit] is what [strings.Cut] has before the
    separator. *)
Lemma genSplit_head (fuel : nat) (s sep : string) :
  sep <> EmptyString -> String.length s <= fuel ->
  strings.genSplit fuel s sep !! 0 = Some (fst (fst (strings.Cut s sep))).
Proof.
  intros Hsep Hlen. unfold strings.Cut. destruct fuel as [|fuel]; simpl.
  - destruct s as [|c s]; [|simpl in Hlen; lia].
    destruct sep as [|c sep]; [congruence|]. reflexivity.
  - destruct (strings.Index s sep); reflexivity.
Qed.

(** [determineHost] in closed form: without a [/] in the path the index
    [parts[1]] is out of range; with one, the host is what stands between
    the first [/] and the next. *)
Lemma determineHost_Cut (path : string) :
  determineHost path =
  match strings.Index path "/" with
  | None => Panics (IndexOutOfRange 1 1)
  | Some m => Returns (fst (fst (strings.Cut (drop_bytes (m + 1) path) "/")))
  end.
Proof.
  unfold determineHost, strings.Split.
  destruct (strings.Index path "/") as [m|] eqn:Hidx.
  - assert (Hne : path <> EmptyString)
      by (eapply Index_Some_nonempty; [|exact Hidx]; discriminate).
    destruct path as [|c path]; [congruence|].
    change (String.length (String c path)) with (S (String.length path)).
    cbn [strings.genSplit]. rewrite Hidx.
    change (String.length "/") with 1.
    cbn [length Nat.leb]. change ((?x :: ?l) !! 1) with (l !! 0).
    rewrite genSplit_head; [reflexivity|discriminate|].
    rewrite length_drop_bytes. simpl. lia.
  - destruct path as [|c path]; [reflexivity|].
    change (String.length (String c path)) with (S (String.length path)).
    cbn [strings.genSplit]. rewrite Hidx. reflexivity.
Qed.

Lemma append_nil (s : string) : String.append EmptyString s = s.
Proof. reflexivity. Qed.

Lemma append_cons (c : ascii) (s1 s2 : string) :
  String.append (String c s1) s2 = String c (String.append s1 s2).
Proof. reflexivity. Qed.

Lemma HasPrefix_slash (c : ascii) (s : string) :
  strings.HasPrefix (String c s) "/" = Ascii.eqb c "/".
Proof.
  unfold strings.HasPrefix. cbn [String.prefix].
  destruct (ascii_dec "/" c) as [<-|Hne].
  - rewrite Ascii.eqb_refl. now destruct s.
  - symmetry. apply Ascii.eqb_neq. congruence.
Qed.

Lemma Index_slash_cons (c : ascii) (s : string) :
  strings.Index (String c s) "/" =
  if Ascii.eqb c "/" then Some 0 else option_map S (strings.Index s "/").
Proof.
  change (strings.Index (String c s) "/") with
    (if strings.HasPrefix (String c s) "/" then Some 0
     else option_map S (strings.Index s "/")).
  now rewrite HasPrefix_slash.
Qed.

(** A [/] after a piece that holds none is the first one. *)
Lemma Index_slash_app (piece rest : string) :
  strings.Index piece "/" = None ->
  strings.Index (String.append piece (String "/" rest)) "/" = Some (String.length piece).
Proof.
  induction piece as [|c piece IH]; intros Hnone.
  - rewrite append_nil. now rewrite Index_slash_cons.
  - rewrite Index_slash_cons in Hnone. rewrite append_cons.
    rewrite Index_slash_cons.
    destruct (Ascii.eqb c "/"); [discriminate|].
    destruct (strings.Index piece "/"); [discriminate|].
    rewrite IH by reflexivity. reflexivity.
Qed.

Lemma Index_slash_app_none (piece : string) :
  strings.Index piece "/" = None ->
  strings.Index (String.append piece EmptyString) "/" = None.
Proof.
  intros H. induction piece as [|c piece IH]; [reflexivity|].
  rewrite Index_slash_cons in H. rewrite append_cons, Index_slash_cons.
  destruct (Ascii.eqb c "/"); [discriminate|].
  destruct (strings.Index piece "/"); [discriminate|].
  now rewrite IH.
Qed.

Lemma take_bytes_app (piece rest : string) :
  take_bytes (String.length piece) (String.append piece rest) = piece.
Proof.
  induction piece as [|c piece IH].
  - rewrite append_nil. now destruct rest.
  - rewrite append_cons. simpl. now rewrite IH.
Qed.

Lemma drop_bytes_app (piece rest : string) :
  drop_bytes (String.length piece) (String.append piece rest) = rest.
Proof.
  induction piece as [|c piece IH]; [reflexivity|].
  rewrite append_cons. simpl. exact IH.
Qed.

(** The key is the first path component after the root: of
    [/host/rest] it is [host], whatever follows. *)
Lemma determineHost_first_component (host rest : string) :
  strings.Index host "/" = None ->
  determineHost (String "/" (String.append host (String "/" rest))) = Returns host.
Proof.
  intros Hhost. rewrite determineHost_Cut, Index_slash_cons. simpl.
  unfold strings.Cut. rewrite Index_slash_app by assumption.
  simpl. now rewrite take_bytes_app.
Qed.

Lemma determineHost_first_component_witness :
  strings.Index "cam1" "/" = None
  /\ determineHost "/cam1/index.m3u8" = Returns "cam1".
Proof.
  split; [reflexivity|].
  exact (determineHost_first_component "cam1" "index.m3u8" eq_refl).
Defined.

(** The guard [len(parts) >= 1] of [determineHost] holds for every path:
    [strings.Split] never returns an empty slice for a separator that is
    not empty, so the [return] of the empty key after the guard is never
    reached. *)
Lemma determineHost_guard_always_true (path : string) :
  (1 <=? length (strings.Split path "/")) = true.
Proof.
  unfold strings.Split. destruct (String.length path) as [|n]; simpl; [reflexivity|].
  destruct (strings.Index path "/"); reflexivity.
Qed.

(** ** Key derivation *)

(** C1: key derivation is not total: on a path that holds no [/] (the
    empty path among them) the index [parts[1]] is out of range and
    [determineHost] panics, where the claim wants the path rejected. *)
Theorem determineHost_panics_without_slash :
  determineHost "index.m3u8" = Panics (IndexOutOfRange 1 1)
  /\ determineHost EmptyString = Panics (IndexOutOfRange 1 1)
  /\ (forall path, strings.Index path "/" = None <->
                   determineHost path = Panics (IndexOutOfRange 1 1)).
Proof.
  split; [reflexivity|]. split; [reflexivity|].
  intros path. rewrite determineHost_Cut.
  destruct (strings.Index path "/"); split; intros H; try reflexivity; discriminate H.
Qed.

(** ** Validation of a start request *)

(** C3. [validateURI] is for validating that the uri is in a valid
    format, and takes what is no URI.  The body of the design document's
    sixth scenario, an object whose [uri] is [not a uri], is accepted:
    whatever the [streamDto] held before, it holds [not a uri] afterwards
    and the error is [nil], because [url.Parse], the one check that is
    made of the uri, reads the text as a relative path.  The check is
    there and can reject: the same body with [%zz] for the uri gives the
    error [Invalid URI]. *)
Theorem validateURI_accepts_what_is_no_uri :
  (forall dto,
     validateURI dto (reader_of (start_body "not a uri"))
     = ({| URI := "not a uri" |}, None))
  /\ url.Parse "not a uri" = None
  /\ (forall dto,
        validateURI dto (reader_of (start_body "%zz"))
        = ({| URI := "%zz" |}, Some "Invalid URI")).
Proof.
  split; [|split].
  - intros dto. vm_compute. reflexivity.
  - vm_compute. reflexivity.
  - intros dto. vm_compute. reflexivity.
Qed.

(** ** Start on a key that has a session *)

Lemma Marshal_encoded (v : streamDto) : json.Marshal v = Ok (encoded v).
Proof. reflexivity. Qed.

Lemma status_Write (w : http.ResponseWriter) (b : string) :
  http.wroteHeader w = None -> http.status (http.Write w b) = Some 200.
Proof. intros H. unfold http.status, http.Write, http.WriteHeader. now rewrite H. Qed.

Lemma status_Error (w : http.ResponseWriter) (msg : string) (code : nat) :
  http.wroteHeader w = None -> http.status (http.Error w msg code) = Some code.
Proof.
  intros H. unfold http.Error, http.status, http.Write, http.WriteHeader, http.Header_edit.
  cbn [http.wroteHeader]. rewrite H. reflexivity.
Qed.

Lemma written_Error (w : http.ResponseWriter) (msg : string) (code : nat) :
  http.written (http.Error w msg code)
  = String.append (http.written w) (String.append msg (str1 (chr 10))).
Proof.
  unfold http.Error, http.Write, http.WriteHeader, http.Header_edit.
  cbn [http.wroteHeader]. now destruct (http.wroteHeader w).
Qed.

Lemma written_path_response (w : http.ResponseWriter) (path : string) :
  http.written (path_response w path)
  = String.append (http.written w) (encoded {| URI := path |}).
Proof.
  unfold path_response, http.Write, http.WriteHeader, http.Header_edit.
  cbn [http.wroteHeader]. now destruct (http.wroteHeader w).
Qed.

Lemma status_path_response (w : http.ResponseWriter) (path : string) :
  http.wroteHeader w = None -> http.status (path_response w path) = Some 200.
Proof. intros H. unfold path_response. now apply status_Write. Qed.

(** The content type that goes out with the serve path. *)
Lemma sent_path_response (w : http.ResponseWriter) (path : string) :
  http.wroteHeader w = None ->
  http.sent (path_response w path) "Content-Type"
  = default [] (http.header w !! "Content-Type") ++ ["application/json"].
Proof.
  intros H. unfold http.sent, path_response, http.Write, http.WriteHeader, http.Header_edit.
  cbn [http.wroteHeader http.header]. rewrite H. cbn [http.wroteHeader].
  unfold http.Header_Add. now rewrite lookup_insert_eq.
Qed.

(** ** The routes *)

(** C6: [GET /list] is registered exactly when the configuration enables
    the list endpoint; [POST /start] and [GET /stream/*filepath] are
    registered whatever the configuration. *)
Theorem list_route_iff_enabled (config : Specification) :
  fst (GetRouter config)
  = (if ListEndpoint config
     then [{| route_method := GET; route_path := "/list"; route_handler := ListStreamHandler |}]
     else [])
    ++ [{| route_method := POST; route_path := "/start"; route_handler := StartStreamHandler |};
        {| route_method := GET; route_path := "/stream/*filepath"; route_handler := FileHandler |}]
  /\ (In {| route_method := GET; route_path := "/list"; route_handler := ListStreamHandler |}
         (fst (GetRouter config))
      <-> ListEndpoint config = true)
  /\ (forall r, In r (fst (GetRouter config)) ->
                route_path r = "/list" -> ListEndpoint config = true)
  /\ In {| route_method := POST; route_path := "/start"; route_handler := StartStreamHandler |}
        (fst (GetRouter config))
  /\ In {| route_method := GET; route_path := "/stream/*filepath"; route_handler := FileHandler |}
        (fst (GetRouter config)).
Proof.
  unfold GetRouter, router_Handle, httprouter_New. cbn [fst].
  destruct (ListEndpoint config); cbn [app In].
  - split; [reflexivity|]. split; [tauto|]. split; [reflexivity|]. tauto.
  - split; [reflexivity|]. split.
    + split; [|discriminate]. intros [H|[H|[]]]; discriminate H.
    + split; [|tauto]. intros r [<-|[<-|[]]]; discriminate.
Qed.

Lemma list_route_iff_enabled_witness :
  ListEndpoint example_spec = true
  /\ In {| route_method := GET; route_path := "/list"; route_handler := ListStreamHandler |}
        (fst (GetRouter example_spec)).
Proof.
  split; [reflexivity|].
  apply (proj2 (proj1 (proj2 (list_route_iff_enabled example_spec)))). reflexivity.
Defined.

(** ** The cleaning process *)

Lemma lookup_snoc2 {A : Type} (l : list A) (x y e : A) (i : nat) :
  (l ++ [x; y]) !! i = Some e <->
  l !! i = Some e \/ (i = length l /\ e = x) \/ (i = S (length l) /\ e = y).
Proof.
  destruct (decide (i < length l)) as [Hlt|Hge].
  - rewrite lookup_app_l by assumption. split; [tauto|].
    intros [H|[[-> _]|[-> _]]]; [assumption|lia|lia].
  - rewrite lookup_app_r by lia.
    assert (Hnone : l !! i = None) by (apply lookup_ge_None; lia).
    destruct (i - length l) as [|[|k]] eqn:Hk; cbn.
    + split; [intros [= <-]; right; left; split; [lia|reflexivity]|].
      intros [H|[[_ ->]|[-> _]]]; [congruence|reflexivity|lia].
    + split; [intros [= <-]; right; right; split; [lia|reflexivity]|].
      intros [H|[[-> _]|[_ ->]]]; [congruence|lia|reflexivity].
    + split; [discriminate|].
      intros [H|[[-> _]|[-> _]]]; [congruence|lia|lia].
Qed.

Section cleaning_facts.

Variable cleanUnused : Controller -> Controller.
Variable config : Specification.
Variable env : timing.

Local Abbreviation step := (cleaner_step cleanUnused config env).
Local Abbreviation run := (cleaner_run cleanUnused config env).
Local Abbreviation D := (CleanupTime config).

Lemma cleaner_run_S (n : nat) (c : cleaner) : run (S n) c = step (run n c).
Proof. reflexivity. Qed.

(** A step from a place in the loop leads to a place in the loop. *)
Lemma cleaner_step_stays (c : cleaner) : pc c <> Exited -> pc (step c) <> Exited.
Proof. unfold cleaner_step. destruct (pc c); cbn; congruence. Qed.

Lemma cleaner_run_stays (n : nat) (c : cleaner) : pc c <> Exited -> pc (run n c) <> Exited.
Proof.
  intros H. induction n as [|n IH]; [exact H|].
  rewrite cleaner_run_S. now apply cleaner_step_stays.
Qed.

(** One round of the loop: the wait for the timer, then the sweep. *)
Lemma cleaner_round (c : cleaner) :
  pc c = AtAfter ->
  step (step c) =
  let fired := (now c + Z.max 0 D + Z.of_N (lag env (round c)))%Z in
  let done := (fired + Z.of_N (sweep_time env (round c)))%Z in
  {| pc := AtAfter; now := done; round := S (round c);
     controllers := cleanUnused (controllers c);
     trace := trace c ++ [TimerSet (now c) D; TimerFired fired;
                          SweepBegin fired; SweepEnd done] |}.
Proof.
  intros H. unfold cleaner_step. rewrite H. cbn. now rewrite <- app_assoc.
Qed.

Lemma cleaner_run_2S (k : nat) (c : cleaner) :
  run (2 * S k) c = step (step (run (2 * k) c)).
Proof. replace (2 * S k) with (S (S (2 * k))) by lia. reflexivity. Qed.

(** The state after [k] rounds of the loop: [k] sweeps done, the
    controller swept [k] times, the goroutine waiting again. *)
Lemma cleaner_rounds (k : nat) (t0 : Z) (ctl : Controller) :
  pc (run (2 * k) (cleaner_start t0 ctl)) = AtAfter
  /\ round (run (2 * k) (cleaner_start t0 ctl)) = k
  /\ controllers (run (2 * k) (cleaner_start t0 ctl)) = Nat.iter k cleanUnused ctl
  /\ sweeps_begun (trace (run (2 * k) (cleaner_start t0 ctl))) = k
  /\ sweeps_ended (trace (run (2 * k) (cleaner_start t0 ctl))) = k
  /\ length (trace (run (2 * k) (cleaner_start t0 ctl))) = 4 * k.
Proof.
  induction k as [|k IH]; [cbn; tauto|].
  rewrite cleaner_run_2S.
  destruct IH as (Hpc & Hround & Hctl & Hb & He & Hlen).
  rewrite (cleaner_round _ Hpc). cbn [pc round controllers trace].
  unfold sweeps_begun, sweeps_ended in *.
  rewrite !List.filter_app, !List.length_app, Hb, He, Hlen, Hround, Hctl. cbn.
  repeat split; lia.
Qed.

Lemma cleaner_inv_start (t0 : Z) (ctl : Controller) :
  cleaner_inv D (cleaner_start t0 ctl).
Proof.
  unfold cleaner_inv, cleaner_start; cbn.
  repeat split; try discriminate; intros; discriminate.
Qed.

Lemma cleaner_inv_step (c : cleaner) : cleaner_inv D c -> cleaner_inv D (step c).
Proof.
  intros (Hpc & Hset & Hfired & Hbegin & Hend & Hgap & Hlast).
  pose proof (N2Z.is_nonneg (lag env (round c))) as Hlag.
  pose proof (N2Z.is_nonneg (sweep_time env (round c))) as Hsweep.
  unfold cleaner_step. destruct (pc c) eqn:Hloc; [| |congruence].
  - (* the timer is set and fires *)
    clear Hlast. unfold cleaner_inv; cbn [pc now trace].
    rewrite List.length_app; cbn [length].
    split; [discriminate|]. split; [|split; [|split; [|split; [|split]]]].
    + intros i a d' [H|[[_ [= _ <-]]|[_ [=]]]]%lookup_snoc2; eauto.
    + intros i t [H|[[_ [=]]|[-> [= <-]]]]%lookup_snoc2.
      * destruct (Hfired i t H) as [H'|[[=] _]]. left. apply lookup_snoc2. tauto.
      * right. repeat split; lia.
    + intros i b [H|[[_ [=]]|[_ [=]]]]%lookup_snoc2.
      destruct (Hbegin i b H) as [(e & He & Hle) (a & Hi & Ha & Hf & Hd)].
      split; [exists e|exists a]; rewrite !lookup_snoc2; tauto.
    + intros i a [H|[[_ [=]]|[_ [=]]]]%lookup_snoc2.
      destruct (Hend i a H) as [Hle _]. split; [|intros _]; lia.
    + intros i j a b Hij [Hi|[[_ [=]]|[_ [=]]]]%lookup_snoc2
        [Hj|[[_ [=]]|[_ [=]]]]%lookup_snoc2.
      eauto.
    + intros _. exists (now c).
      replace (length (trace c) + 2 - 2) with (length (trace c)) by lia.
      replace (length (trace c) + 2 - 1) with (S (length (trace c))) by lia.
      rewrite !lookup_snoc2. repeat split; try lia; tauto.
  - (* the sweep runs *)
    destruct (Hlast eq_refl) as (a0 & Hlen & Ha0 & Hf0 & Hd0).
    unfold cleaner_inv; cbn [pc now trace].
    rewrite List.length_app; cbn [length].
    split; [discriminate|]. split; [|split; [|split; [|split; [|split]]]].
    + intros i a d' [H|[[_ [=]]|[_ [=]]]]%lookup_snoc2; eauto.
    + intros i t [H|[[_ [=]]|[_ [=]]]]%lookup_snoc2. left.
      destruct (Hfired i t H) as [H'|(_ & Hi & ->)]; apply lookup_snoc2; tauto.
    + intros i b [H|[[-> [= ->]]|[_ [=]]]]%lookup_snoc2.
      * destruct (Hbegin i b H) as [(e & He & Hle) (a & Hi & Ha & Hf & Hd)].
        split; [exists e|exists a]; rewrite !lookup_snoc2; tauto.
      * split.
        -- eexists. rewrite lookup_snoc2. split; [right; right; eauto|lia].
        -- exists a0. rewrite !lookup_snoc2. tauto.
    + intros i a [H|[[_ [=]]|[_ [= ->]]]]%lookup_snoc2.
      * destruct (Hend i a H) as [Hle _]. split; [lia|discriminate].
      * split; [lia|discriminate].
    + intros i j a b Hij Hi [Hj|[[-> [= ->]]|[_ [=]]]]%lookup_snoc2.
      * apply lookup_snoc2 in Hi as [Hi|[[-> _]|[-> _]]].
        -- eauto.
        -- apply lookup_lt_Some in Hj. lia.
        -- apply lookup_lt_Some in Hj. lia.
      * apply lookup_snoc2 in Hi as [Hi|[[-> _]|[-> _]]]; [|lia|lia].
        destruct (Hend i a Hi) as [Hle Hd]. specialize (Hd eq_refl). lia.
    + discriminate.
Qed.

Lemma cleaner_inv_run (n : nat) (t0 : Z) (ctl : Controller) :
  cleaner_inv D (run n (cleaner_start t0 ctl)).
Proof.
  induction n as [|n IH]; [apply cleaner_inv_start|].
  rewrite cleaner_run_S. now apply cleaner_inv_step.
Qed.

End cleaning_facts.

Lemma cleaner_run_not_exited (cleanUnused : Controller -> Controller)
    (config : Specification) (env : timing) (n : nat) (t0 : Z) (ctl : Controller) :
  pc (cleaner_run cleanUnused config env n (cleaner_start t0 ctl)) <> Exited.
Proof. exact (proj1 (cleaner_inv_run cleanUnused config env n t0 ctl)). Qed.

(** C10. Sweeps never overlap. At any point of the cleaning process: the
    beginning of a sweep is followed at once by its end, so that no other
    sweep begins in between; of two sweeps the later begins after the
    earlier has ended; and a sweep that begins after another has ended
    begins at least [CleanupTime config] later. *)
Theorem sweeps_do_not_overlap (cleanUnused : Controller -> Controller)
    (config : Specification) (env : timing) (t0 : Z) (n : nat) :
  (forall i b,
      trace (cleaner_run cleanUnused config env n (GetRouter_started config t0)) !! i
      = Some (SweepBegin b) ->
      exists e,
        trace (cleaner_run cleanUnused config env n (GetRouter_started config t0)) !! S i
        = Some (SweepEnd e) /\ (b <= e)%Z)
  /\ (forall i j b1 b2,
        i < j ->
        trace (cleaner_run cleanUnused config env n (GetRouter_started config t0)) !! i
        = Some (SweepBegin b1) ->
        trace (cleaner_run cleanUnused config env n (GetRouter_started config t0)) !! j
        = Some (SweepBegin b2) ->
        exists e1,
          trace (cleaner_run cleanUnused config env n (GetRouter_started config t0)) !! S i
          = Some (SweepEnd e1)
          /\ (b1 <= e1 <= b2)%Z /\ (e1 + CleanupTime config <= b2)%Z)
  /\ (forall i j a b,
        i < j ->
        trace (cleaner_run cleanUnused config env n (GetRouter_started config t0)) !! i
        = Some (SweepEnd a) ->
        trace (cleaner_run cleanUnused config env n (GetRouter_started config t0)) !! j
        = Some (SweepBegin b) ->
        (a + CleanupTime config <= b)%Z /\ (a <= b)%Z).
Proof.
  unfold GetRouter_started.
  destruct (cleaner_inv_run cleanUnused config env n t0 (snd (GetRouter config)))
    as (_ & _ & _ & Hbegin & _ & Hgap & _).
  split; [|split].
  - intros i b H. exact (proj1 (Hbegin i b H)).
  - intros i j b1 b2 Hij Hi Hj.
    destruct (Hbegin i b1 Hi) as [(e1 & He1 & Hle) _].
    exists e1. split; [exact He1|].
    assert (Hlt : S i < j).
    { destruct (decide (S i = j)) as [<-|Hne]; [congruence|lia]. }
    destruct (Hgap (S i) j e1 b2 Hlt He1 Hj). lia.
  - exact Hgap.
Qed.

Lemma sweeps_do_not_overlap_witness :
  trace (cleaner_run (fun ctl => ctl) example_spec example_timing 4
           (GetRouter_started example_spec 0)) !! 3 = Some (SweepEnd 120006000000)
  /\ trace (cleaner_run (fun ctl => ctl) example_spec example_timing 8
              (GetRouter_started example_spec 0)) !! 6 = Some (SweepBegin 240007000000)
  /\ (120006000000 + CleanupTime example_spec <= 240007000000)%Z.
Proof.
  split; [reflexivity|]. split; [reflexivity|].
  exact (proj1 (proj2 (proj2
    (sweeps_do_not_overlap (fun ctl => ctl) example_spec example_timing 0 8))
    3 6 120006000000%Z 240007000000%Z ltac:(lia) eq_refl eq_refl)).
Defined.

(** C8, as the claim has it: some behaviour of the environment makes the
    cleaning process leave its loop.  There is none. *)
Lemma cleaning_has_no_stop_signal :
  ~ (exists (env : timing) (n : nat),
       pc (cleaner_run (fun ctl => ctl) example_spec env n
             (GetRouter_started example_spec 0)) = Exited).
Proof.
  intros (env & n & H). revert H. apply cleaner_run_not_exited.
Qed.

(** C8, amended. The cleaning process is a free-running loop: whatever
    the timing, it never leaves the loop, and after every [k] rounds it
    has begun and ended [k] sweeps and waits on the next timer. *)
Theorem cleaning_never_stops (cleanUnused : Controller -> Controller)
    (config : Specification) (env : timing) (t0 : Z) :
  (forall n,
     pc (cleaner_run cleanUnused config env n (GetRouter_started config t0)) <> Exited)
  /\ (forall k,
        pc (cleaner_run cleanUnused config env (2 * k) (GetRouter_started config t0))
        = AtAfter
        /\ sweeps_ended
             (trace (cleaner_run cleanUnused config env (2 * k)
                       (GetRouter_started config t0))) = k).
Proof.
  unfold GetRouter_started. split.
  - intros n. apply cleaner_run_not_exited.
  - intros k.
    destruct (cleaner_rounds cleanUnused config env k t0 (snd (GetRouter config)))
      as (Hpc & _ & _ & _ & Hended & _).
    split; assumption.
Qed.

Lemma cleaning_never_stops_witness :
  pc (cleaner_run (fun ctl => ctl) example_spec example_timing 7
        (GetRouter_started example_spec 0)) <> Exited.
Proof.
  exact (proj1 (cleaning_never_stops (fun ctl => ctl) example_spec example_timing 0) 7).
Defined.

(** * Further properties of [core/routing.go] *)

(** ** The key of a path *)

Lemma append_empty_r (s : string) : String.append s EmptyString = s.
Proof. induction s as [|c s IH]; [reflexivity|]. now rewrite append_cons, IH. Qed.

Lemma drop_bytes_app_slash (piece rest : string) :
  drop_bytes (String.length piece + 1) (String.append piece (String "/" rest)) = rest.
Proof.
  induction piece as [|c piece IH]; [reflexivity|].
  rewrite append_cons. simpl. exact IH.
Qed.

(** The first [/] of a text cuts it into a piece without [/] and the
    rest. *)
Lemma Index_slash_split (s : string) (m : nat) :
  strings.Index s "/" = Some m ->
  strings.Index (take_bytes m s) "/" = None
  /\ s = String.append (take_bytes m s) (String "/" (drop_bytes (m + 1) s)).
Proof.
  revert m. induction s as [|c s IH]; intros m H; [discriminate H|].
  rewrite Index_slash_cons in H.
  destruct (Ascii.eqb c "/") eqn:Hc.
  - injection H as <-. apply Ascii.eqb_eq in Hc as ->. split; reflexivity.
  - destruct (strings.Index s "/") as [k|] eqn:Hk; [|discriminate H].
    injection H as <-. destruct (IH k eq_refl) as [Hnone Heq].
    cbn [take_bytes drop_bytes Nat.add]. split.
    + now rewrite Index_slash_cons, Hc, Hnone.
    + rewrite append_cons. now rewrite <- Heq.
Qed.

(** [determineHost] returns [h] exactly for the paths that hold a
    [/], with [h] standing between the first [/] and the next one, or the
    end of the path: what stands before the first [/] is passed over, and
    [h] is empty when the second [/] follows the first at once or the
    path ends with its first [/]. *)
Theorem determineHost_returns_iff (path h : string) :
  determineHost path = Returns h <->
  exists a rest,
    strings.Index a "/" = None
    /\ strings.Index h "/" = None
    /\ path = String.append a (String "/" (String.append h rest))
    /\ (rest = EmptyString \/ exists r, rest = String "/" r).
Proof.
  rewrite determineHost_Cut. split.
  - destruct (strings.Index path "/") as [m|] eqn:Hm; [|discriminate].
    destruct (Index_slash_split path m Hm) as [Ha Hpath].
    unfold strings.Cut.
    destruct (strings.Index (drop_bytes (m + 1) path) "/") as [i|] eqn:Hi;
      cbn [fst]; intros [= <-].
    + destruct (Index_slash_split _ i Hi) as [Hh Htail].
      exists (take_bytes m path), (String "/" (drop_bytes (i + 1) (drop_bytes (m + 1) path))).
      split; [exact Ha|]. split; [exact Hh|]. split; [|right; eauto].
      now rewrite <- Htail.
    + exists (take_bytes m path), EmptyString.
      split; [exact Ha|]. split; [exact Hi|]. split; [|left; reflexivity].
      now rewrite append_empty_r.
  - intros (a & rest & Ha & Hh & -> & Hrest).
    rewrite (Index_slash_app a _ Ha), drop_bytes_app_slash. unfold strings.Cut.
    destruct Hrest as [->|[r ->]].
    + rewrite (Index_slash_app_none h Hh). cbn [fst]. now rewrite append_empty_r.
    + rewrite (Index_slash_app h r Hh). cbn [fst]. now rewrite take_bytes_app.
Qed.

(** ** The response to a Start on a key that has a session *)

Section response.

Variable Stream_Restart : Stream -> Specification -> string -> Stream * option string.
Variables (w : http.ResponseWriter) (s : Stream) (spec : Specification) (dir : string).

Local Abbreviation handle := (handleAlreadyRunningStream Stream_Restart w s spec dir).

(** The handler answers in one of two ways, whatever it is given. *)
Lemma handle_cases :
  (exists path, fst handle = path_response w path)
  \/ fst handle = http.Error w "Unexpected error" 500.
Proof.
  unfold handleAlreadyRunningStream.
  destruct (negb (IsActive (Stream_Streak s))).
  - destruct (Stream_Restart s spec dir) as [s' [e|]]; [right; reflexivity|].
    left. exists (Path s'). reflexivity.
  - left. exists (Path s). reflexivity.
Qed.

Lemma wroteHeader_path_response_sent (x : nat * http.Header) (path : string) :
  http.wroteHeader w = Some x -> http.wroteHeader (path_response w path) = Some x.
Proof.
  intros H. unfold path_response, http.Write, http.WriteHeader, http.Header_edit.
  cbn [http.wroteHeader]. now rewrite H.
Qed.

Lemma wroteHeader_Error_sent (x : nat * http.Header) (msg : string) (code : nat) :
  http.wroteHeader w = Some x -> http.wroteHeader (http.Error w msg code) = Some x.
Proof.
  intros H. unfold http.Error, http.Write, http.WriteHeader, http.Header_edit.
  cbn [http.wroteHeader]. now rewrite H.
Qed.

(** Once the status line has gone out, the handler changes neither the
    status nor the headers that were sent, also when the restart fails:
    the [500] is not delivered.  It only writes its body after what was
    written. *)
Theorem response_after_header_sent (x : nat * http.Header) :
  http.wroteHeader w = Some x ->
  http.wroteHeader (fst handle) = Some x
  /\ http.status (fst handle) = Some (fst x)
  /\ (forall key, http.sent (fst handle) key = default [] (snd x !! key))
  /\ exists body, http.written (fst handle) = String.append (http.written w) body.
Proof.
  intros H.
  assert (Hsent : http.wroteHeader (fst handle) = Some x).
  { destruct handle_cases as [[path ->]| ->];
      [now apply wroteHeader_path_response_sent|now apply wroteHeader_Error_sent]. }
  split; [exact Hsent|]. split; [|split].
  - unfold http.status. now rewrite Hsent.
  - intros key. unfold http.sent. rewrite Hsent. now destruct x.
  - destruct handle_cases as [[path ->]| ->]; eexists;
      [apply written_path_response|apply written_Error].
Qed.

(** The headers that go out with the answer on a response that sent
    nothing yet.  With the path goes the JSON content type after whatever
    content types the response already held: it is added, not set.  With
    the error go the plain-text content type and [nosniff], in place of
    what the response held for them. *)
Theorem response_headers :
  http.wroteHeader w = None ->
  (IsActive (Stream_Streak s) = true \/ snd (Stream_Restart s spec dir) = None ->
   http.status (fst handle) = Some 200
   /\ http.sent (fst handle) "Content-Type"
      = default [] (http.header w !! "Content-Type") ++ ["application/json"])
  /\ (IsActive (Stream_Streak s) = false -> snd (Stream_Restart s spec dir) <> None ->
      http.status (fst handle) = Some 500
      /\ http.sent (fst handle) "Content-Type" = ["text/plain; charset=utf-8"]
      /\ http.sent (fst handle) "X-Content-Type-Options" = ["nosniff"]).
Proof.
  intros H. unfold handleAlreadyRunningStream. split.
  - intros Hok.
    assert (Hpath : forall p,
               http.status (path_response w p) = Some 200
               /\ http.sent (path_response w p) "Content-Type"
                  = default [] (http.header w !! "Content-Type") ++ ["application/json"]).
    { intros p. split; [now apply status_path_response|now apply sent_path_response]. }
    destruct (IsActive (Stream_Streak s)); cbn [negb]; [apply Hpath|].
    destruct Hok as [Hok|Hok]; [discriminate|].
    destruct (Stream_Restart s spec dir) as [s' [e|]]; [discriminate|]. apply Hpath.
  - intros Hinactive Hfail. rewrite Hinactive. cbn [negb].
    destruct (Stream_Restart s spec dir) as [s' [e|]]; [|now destruct Hfail].
    cbn [fst]. split; [now apply status_Error|].
    unfold http.sent, http.Error, http.Write, http.WriteHeader, http.Header_edit,
      http.Header_Set.
    cbn [http.wroteHeader http.header]. rewrite H. cbn [http.wroteHeader].
    split; [|now rewrite lookup_insert_eq].
    rewrite lookup_insert_ne by discriminate. now rewrite lookup_insert_eq.
Qed.

End response.

Lemma response_after_header_sent_witness :
  http.status
    (fst (handleAlreadyRunningStream (fun s _ _ => (s, Some "exit status 1"))
            (http.WriteHeader http.NewResponseWriter 204)
            (example_stream false) example_spec "cam1")) = Some 204.
Proof.
  exact (proj1 (proj2
    (response_after_header_sent (fun s _ _ => (s, Some "exit status 1"))
       (http.WriteHeader http.NewResponseWriter 204)
       (example_stream false) example_spec "cam1" (204, ∅) eq_refl))).
Defined.

Lemma response_headers_witness :
  http.sent
    (fst (handleAlreadyRunningStream (fun s _ _ => (s, Some "exit status 1"))
            http.NewResponseWriter (example_stream false) example_spec "cam1"))
    "Content-Type" = ["text/plain; charset=utf-8"].
Proof.
  exact (proj1 (proj2 (proj2
    (response_headers (fun s _ _ => (s, Some "exit status 1"))
       http.NewResponseWriter (example_stream false) example_spec "cam1" eq_refl)
    eq_refl ltac:(discriminate)))).
Defined.

(** ** Bodies that [json.Marshal] writes, read by [validateURI] *)

(** One ASCII byte as [json.Marshal] writes it, plain or as an escape, is
    read back as that byte. *)
Lemma string_literal_quoted_cons (c : ascii) (s rest : string) :
  (byte_of c <? 128)%N = true ->
  json.string_literal (String.append (json.quoted_from (String c s) 0 0) rest) 0
  = match json.string_literal (String.append (json.quoted_from s 0 0) rest) 0 with
    | Some (str, r) => Some (String c str, r)
    | None => None
    end.
Proof.
  destruct c as [b0 b1 b2 b3 b4 b5 b6 b7].
  destruct b7; intros H.
  - exfalso. destruct b0, b1, b2, b3, b4, b5, b6; vm_compute in H; discriminate H.
  - clear H. destruct b0, b1, b2, b3, b4, b5, b6; reflexivity.
Qed.

Lemma string_literal_quoted (s rest : string) :
  ascii_only s = true ->
  json.string_literal (String.append (json.quoted_from s 0 0) rest) 0 = Some (s, rest).
Proof.
  induction s as [|c s IH]; intros H; [reflexivity|].
  cbn [ascii_only] in H. apply andb_prop in H as [Hc Hs].
  rewrite string_literal_quoted_cons by exact Hc. now rewrite IH.
Qed.

Lemma length_append (s1 s2 : string) :
  String.length (String.append s1 s2) = String.length s1 + String.length s2.
Proof.
  induction s1 as [|c s1 IH]; [reflexivity|].
  rewrite append_cons. cbn [String.length]. now rewrite IH.
Qed.

(** A string value is read as the string literal after its quote. *)
Lemma parse_value_string (fuel : nat) (depth : N) (lit : string) :
  json.parse_value (S fuel) depth (String dquote lit)
  = match json.string_literal lit 0 with
    | Some (str, r) => Some (json.Str str, r)
    | None => None
    end.
Proof. reflexivity. Qed.

(** An object whose first member follows the brace at once. *)
Lemma parse_value_object (fuel : nat) (members : string) :
  json.parse_value (S fuel) 0 (String "{" (String dquote members))
  = json.parse_members fuel 1 (String dquote members) [].
Proof. reflexivity. Qed.

(** The last member of an object, a string under the key [key]. *)
Lemma parse_members_last (fuel : nat) (depth : N) (lit key value rest : string)
    (acc : list (string * json.value)) :
  json.string_literal lit 0
  = Some (key, String ":" (String dquote (String.append (json.quoted_from value 0 0)
                                             (String "}" rest)))) ->
  ascii_only value = true ->
  json.parse_members (S (S fuel)) depth (String dquote lit) acc
  = Some (json.Object (rev ((key, json.Str value) :: acc)), rest).
Proof.
  intros Hkey Hvalue.
  change (json.parse_members (S (S fuel)) depth (String dquote lit) acc)
    with (match json.string_literal lit 0 with
          | None => None
          | Some (key, r1) =>
            match json.skip_space r1 with
            | String ":" r2 =>
              match json.parse_value (S fuel) depth r2 with
              | None => None
              | Some (v, r3) =>
                match json.skip_space r3 with
                | String "," r4 =>
                  json.parse_members (S fuel) depth r4 ((key, v) :: acc)
                | String "}" r4 => Some (json.Object (rev ((key, v) :: acc)), r4)
                | _ => None
                end
              end
            | _ => None
            end
          end).
  rewrite Hkey.
  change (json.skip_space (String ":" ?r)) with (String ":" r).
  cbv iota. rewrite parse_value_string, string_literal_quoted by exact Hvalue.
  reflexivity.
Qed.

(** The fuel that [json.parse] starts with is enough for a body of one
    member. *)
Lemma parse_member_body (key value : string) :
  ascii_only key = true -> ascii_only value = true ->
  json.parse (member_body key value) = Some (json.Object [(key, json.Str value)]).
Proof.
  intros Hkey Hvalue. unfold json.parse, member_body.
  cbn [String.length]. rewrite length_append. cbn [String.length].
  rewrite !Nat.add_succ_r.
  rewrite parse_value_object.
  rewrite (parse_members_last _ 1 _ key value EmptyString []);
    [reflexivity| |exact Hvalue].
  now apply string_literal_quoted.
Qed.

Lemma names_field_uri (key : string) :
  json.names_field "uri" key = String.eqb (json.fold_ascii key) "URI".
Proof.
  unfold json.names_field. destruct (String.eqb_spec key "uri") as [->|_]; reflexivity.
Qed.

(** What [json.Unmarshal] stores from a body of one member. *)
Lemma Unmarshal_member_body (key value : string) (dto : streamDto) :
  ascii_only key = true -> ascii_only value = true ->
  json.Unmarshal (member_body key value) dto
  = (if String.eqb (json.fold_ascii key) "URI" then {| URI := value |} else dto, None).
Proof.
  intros Hkey Hvalue. unfold json.Unmarshal.
  rewrite parse_member_body by assumption.
  cbn [fold_left json.store_member]. rewrite names_field_uri.
  now destruct (String.eqb (json.fold_ascii key) "URI").
Qed.

Lemma encoded_member_body (uri : string) :
  encoded {| URI := uri |} = member_body "uri" uri.
Proof. reflexivity. Qed.

Lemma validateURI_member_body (dto : streamDto) (key value : string) :
  ascii_only key = true -> ascii_only value = true ->
  validateURI dto (reader_of (member_body key value))
  = (if String.eqb (json.fold_ascii key) "URI" then {| URI := value |} else dto,
     uri_error (URI (if String.eqb (json.fold_ascii key) "URI"
                     then {| URI := value |} else dto))).
Proof.
  intros Hkey Hvalue. unfold validateURI, reader_of, ReadAll, uri_error.
  cbn [failure content]. rewrite Unmarshal_member_body by assumption.
  now destruct (url.Parse _).
Qed.

Lemma validateURI_encoded (dto : streamDto) (uri : string) :
  ascii_only uri = true ->
  validateURI dto (reader_of (encoded {| URI := uri |}))
  = ({| URI := uri |}, uri_error uri).
Proof.
  intros Huri. rewrite encoded_member_body.
  now rewrite validateURI_member_body.
Qed.

(** The answer to a Start on an active session is a body that
    [validateURI] reads: posted back as it was written, it leaves the
    serve path of the session in the [streamDto], and is accepted exactly
    when [url.Parse] takes the path.  The path is of ASCII bytes; the
    encoder escapes what it has to and the decoder undoes it. *)
Theorem served_path_reads_back (restart : Stream -> Specification -> string -> Stream * option string)
    (w : http.ResponseWriter) (s : Stream) (spec : Specification) (dir : string)
    (dto : streamDto) :
  IsActive (Stream_Streak s) = true ->
  ascii_only (Path s) = true ->
  http.written w = EmptyString ->
  validateURI dto
    (reader_of (http.written (fst (handleAlreadyRunningStream restart w s spec dir))))
  = ({| URI := Path s |}, uri_error (Path s)).
Proof.
  intros Hactive Hpath Hw. unfold handleAlreadyRunningStream.
  rewrite Hactive. cbn [negb]. rewrite Marshal_encoded.
  fold (path_response w (Path s)). cbn [fst].
  rewrite written_path_response, Hw, append_nil.
  now apply validateURI_encoded.
Qed.

Lemma served_path_reads_back_witness :
  validateURI zero_streamDto
    (reader_of (http.written
       (fst (handleAlreadyRunningStream (fun s _ _ => (s, None)) http.NewResponseWriter
               {| OriginalURI := "rtsp://cam1/onvif"; Path := "/stream/<cam 1>/index";
                  Stream_Streak := {| active := true; last_activity := 0 |}; CMD := 1 |}
               example_spec "cam1"))))
  = ({| URI := "/stream/<cam 1>/index" |}, None).
Proof.
  exact (served_path_reads_back (fun s _ _ => (s, None)) http.NewResponseWriter
           {| OriginalURI := "rtsp://cam1/onvif"; Path := "/stream/<cam 1>/index";
              Stream_Streak := {| active := true; last_activity := 0 |}; CMD := 1 |}
           example_spec "cam1" zero_streamDto eq_refl eq_refl eq_refl).
Defined.

(** Of a body with one member, a string, [validateURI] stores the value
    when the key is [uri] in any ASCII case, and then judges the value;
    under any other key the value is passed over, the [streamDto] is left
    as it was and what is judged is the uri it held before: a body that
    names no uri is no error. *)
Theorem validateURI_matches_key (dto : streamDto) (key value : string) :
  ascii_only key = true -> ascii_only value = true ->
  (json.fold_ascii key = "URI" ->
   validateURI dto (reader_of (member_body key value))
   = ({| URI := value |}, uri_error value))
  /\ (json.fold_ascii key <> "URI" ->
      validateURI dto (reader_of (member_body key value))
      = (dto, uri_error (URI dto))).
Proof.
  intros Hkey Hvalue. rewrite validateURI_member_body by assumption.
  destruct (String.eqb_spec (json.fold_ascii key) "URI") as [Heq|Hne].
  - split; [reflexivity|]. intros H. now destruct H.
  - split; [|reflexivity]. intros H. now destruct Hne.
Qed.

Lemma validateURI_matches_key_witness :
  validateURI zero_streamDto (reader_of (member_body "Uri" "rtsp://cam1/onvif"))
  = ({| URI := "rtsp://cam1/onvif" |}, None)
  /\ validateURI zero_streamDto (reader_of (member_body "url" "rtsp://cam1/onvif"))
     = (zero_streamDto, None).
Proof.
  split.
  - exact (proj1 (validateURI_matches_key zero_streamDto "Uri" "rtsp://cam1/onvif"
                    eq_refl eq_refl) eq_refl).
  - exact (proj2 (validateURI_matches_key zero_streamDto "url" "rtsp://cam1/onvif"
                    eq_refl eq_refl) ltac:(discriminate)).
Defined.

(** ** What [validateURI] takes for a URI *)

Lemma HasPrefix_char (c ch : ascii) (s : string) :
  strings.HasPrefix (String c s) (String ch EmptyString) = Ascii.eqb c ch.
Proof.
  unfold strings.HasPrefix. cbn [String.prefix].
  destruct (ascii_dec ch c) as [<-|Hne].
  - rewrite Ascii.eqb_refl. now destruct s.
  - symmetry. apply Ascii.eqb_neq. congruence.
Qed.

Lemma lacks_Index (ch : ascii) (s : string) :
  lacks ch s = true -> strings.Index s (String ch EmptyString) = None.
Proof.
  induction s as [|c s IH]; intros H; [reflexivity|].
  cbn [lacks] in H. apply andb_prop in H as [Hc Hs].
  change (strings.Index (String c s) (String ch EmptyString))
    with (if strings.HasPrefix (String c s) (String ch EmptyString) then Some 0
          else option_map S (strings.Index s (String ch EmptyString))).
  rewrite HasPrefix_char, IH by exact Hs.
  now destruct (Ascii.eqb c ch).
Qed.

Lemma lacks_take_bytes (ch : ascii) (n : nat) (s : string) :
  lacks ch s = true -> lacks ch (take_bytes n s) = true.
Proof.
  revert s. induction n as [|n IH]; intros [|c s] H; try reflexivity.
  cbn [lacks take_bytes] in *. apply andb_prop in H as [-> Hs]. now rewrite IH.
Qed.

Lemma lacks_Cut (ch : ascii) (s : string) :
  lacks ch s = true -> strings.Cut s (String ch EmptyString) = (s, EmptyString, false).
Proof. intros H. unfold strings.Cut. now rewrite lacks_Index. Qed.

Lemma plain_text_spec (s : string) :
  plain_text s = true ->
  ascii_only s = true
  /\ url.stringContainsCTLByte s = false
  /\ lacks "%" s = true /\ lacks ":" s = true /\ lacks "#" s = true /\ lacks "?" s = true.
Proof.
  induction s as [|c s IH]; intros H; [repeat split|].
  cbn [plain_text] in H. apply andb_prop in H as [H Hs].
  apply andb_prop in H as [Hrange Hnot].
  destruct (IH Hs) as (IH1 & IH2 & IH3 & IH4 & IH5 & IH6).
  unfold url.stringContainsCTLByte in *.
  cbn [ascii_only lacks list_ascii_of_string existsb].
  rewrite IH1, IH2, IH3, IH4, IH5, IH6.
  unfold in_range in Hrange. apply andb_prop in Hrange as [Hlo Hhi].
  apply N.leb_le in Hlo, Hhi.
  assert (Hb : (byte_of c <? 128)%N = true) by (apply N.ltb_lt; lia).
  assert (Hl : (byte_of c <? 32)%N = false) by (apply N.ltb_ge; lia).
  assert (Hd : (byte_of c =? 127)%N = false) by (apply N.eqb_neq; lia).
  rewrite Hb, Hl, Hd.
  unfold byte_in in Hnot. cbn [list_ascii_of_string existsb] in Hnot.
  rewrite !negb_orb in Hnot.
  apply andb_prop in Hnot as [H1 Hnot]. apply andb_prop in Hnot as [H2 Hnot].
  apply andb_prop in Hnot as [H3 Hnot]. apply andb_prop in Hnot as [H4 _].
  repeat split; cbn [andb orb]; rewrite ?andb_true_r; assumption.
Qed.

Lemma getScheme_from_no_colon (i : nat) (rawURL rest : string) :
  lacks ":" rest = true ->
  url.getScheme_from i rawURL rest = Ok (EmptyString, rawURL).
Proof.
  revert i. induction rest as [|ch rest IH]; intros i H; [reflexivity|].
  cbn [lacks] in H. apply andb_prop in H as [Hch Hrest].
  cbn [url.getScheme_from].
  destruct (is_alpha (byte_of ch)); [now apply IH|].
  destruct (is_digit (byte_of ch) || byte_in "+-." ch).
  { destruct (i =? 0); [reflexivity|now apply IH]. }
  replace (byte_of ch =? 58)%N with false; [reflexivity|].
  symmetry. apply N.eqb_neq. intros Heq.
  apply negb_true_iff, Ascii.eqb_neq in Hch. apply Hch.
  rewrite <- (ascii_N_embedding ch). unfold byte_of in Heq. now rewrite Heq.
Qed.

Lemma unescape_check_no_percent (s : string) :
  lacks "%" s = true -> url.unescape_check s url.encodePath = None.
Proof.
  induction s as [|ch s IH]; intros H; [reflexivity|].
  cbn [lacks] in H. apply andb_prop in H as [Hch Hs].
  apply negb_true_iff in Hch.
  cbn [url.unescape_check url.is_host_mode andb]. rewrite Hch. now apply IH.
Qed.

(** A text without control bytes, [:], [#] and [?] that does not start
    with [//] is a path for [url.Parse]: the only errors are those of its
    escapes. *)
Lemma Parse_path (s : string) :
  url.stringContainsCTLByte s = false ->
  lacks ":" s = true -> lacks "#" s = true -> lacks "?" s = true ->
  strings.HasPrefix s "//" = false ->
  url.Parse s = url.unescape_check s url.encodePath.
Proof.
  intros Hctl Hcolon Hhash Hquery Hprefix.
  unfold url.Parse. rewrite (lacks_Cut "#" s Hhash).
  replace (url.parse s) with (url.unescape_check s url.encodePath);
    [now destruct (url.unescape_check s url.encodePath)|].
  unfold url.parse. rewrite Hctl.
  destruct (String.eqb_spec s "*") as [->|_]; [reflexivity|].
  unfold url.getScheme. rewrite getScheme_from_no_colon by exact Hcolon.
  rewrite (lacks_Cut "?" s Hquery).
  cbn [String.eqb negb]. rewrite andb_false_r, Hprefix, andb_false_r.
  replace (strings.Contains (strings.Cut s "/").1.1 ":") with false.
  - now rewrite andb_false_r.
  - unfold strings.Contains, strings.Cut.
    destruct (strings.Index s "/") as [i|]; cbn [fst].
    + now rewrite (lacks_Index ":" _ (lacks_take_bytes ":" i s Hcolon)).
    + now rewrite (lacks_Index ":" s Hcolon).
Qed.

(** [url.Parse] takes every text of printable ASCII bytes that holds no
    [%], [:], [#] or [?] and does not start with [//]: as a path. *)
Lemma Parse_plain_text (s : string) :
  plain_text s = true -> strings.HasPrefix s "//" = false -> url.Parse s = None.
Proof.
  intros Hplain Hprefix.
  destruct (plain_text_spec s Hplain) as (_ & Hctl & Hpct & Hcolon & Hhash & Hquery).
  rewrite Parse_path by assumption. now apply unescape_check_no_percent.
Qed.

(** [validateURI] asks for no more of a uri than [url.Parse] does, and
    that takes much that is no URI: a body whose uri is any text of
    printable ASCII bytes without [%], [:], [#] and [?] that does not
    start with [//], words with spaces among them, is accepted, and the
    text is stored. *)
Theorem validateURI_accepts_plain_text (dto : streamDto) (uri : string) :
  plain_text uri = true ->
  strings.HasPrefix uri "//" = false ->
  validateURI dto (reader_of (encoded {| URI := uri |})) = ({| URI := uri |}, None).
Proof.
  intros Hplain Hprefix.
  rewrite validateURI_encoded by (apply plain_text_spec, Hplain).
  unfold uri_error. now rewrite Parse_plain_text.
Qed.

Lemma validateURI_accepts_plain_text_witness :
  validateURI zero_streamDto (reader_of (encoded {| URI := "<no uri at all>" |}))
  = ({| URI := "<no uri at all>" |}, None).
Proof.
  exact (validateURI_accepts_plain_text zero_streamDto "<no uri at all>" eq_refl eq_refl).
Defined.

(** A uri with an ASCII control byte before its fragment is rejected,
    with [Invalid URI] for the error; the [streamDto] holds the rejected
    uri all the same. *)
Theorem validateURI_rejects_control_bytes (dto : streamDto) (uri : string) :
  ascii_only uri = true ->
  url.stringContainsCTLByte (fst (fst (strings.Cut uri "#"))) = true ->
  validateURI dto (reader_of (encoded {| URI := uri |}))
  = ({| URI := uri |}, Some "Invalid URI").
Proof.
  intros Hascii Hctl. rewrite validateURI_encoded by exact Hascii.
  unfold uri_error, url.Parse.
  destruct (strings.Cut uri "#") as [[u frag] found]. cbn [fst] in Hctl.
  unfold url.parse. now rewrite Hctl.
Qed.

Lemma validateURI_rejects_control_bytes_witness :
  validateURI zero_streamDto
    (reader_of (encoded {| URI := String.append "rtsp://cam1/" (str1 (chr 10)) |}))
  = ({| URI := String.append "rtsp://cam1/" (str1 (chr 10)) |}, Some "Invalid URI").
Proof.
  exact (validateURI_rejects_control_bytes zero_streamDto
           (String.append "rtsp://cam1/" (str1 (chr 10))) eq_refl eq_refl).
Defined.

Lemma ascii_only_app (a b : string) :
  ascii_only (String.append a b) = ascii_only a && ascii_only b.
Proof.
  induction a as [|c a IH]; [reflexivity|].
  rewrite append_cons. cbn [ascii_only]. now rewrite IH, andb_assoc.
Qed.

Lemma lacks_app (ch : ascii) (a b : string) :
  lacks ch (String.append a b) = lacks ch a && lacks ch b.
Proof.
  induction a as [|c a IH]; [reflexivity|].
  rewrite append_cons. cbn [lacks]. now rewrite IH, andb_assoc.
Qed.

Lemma stringContainsCTLByte_app (a b : string) :
  url.stringContainsCTLByte (String.append a b)
  = url.stringContainsCTLByte a || url.stringContainsCTLByte b.
Proof.
  unfold url.stringContainsCTLByte.
  induction a as [|c a IH]; [reflexivity|].
  rewrite append_cons. cbn [list_ascii_of_string existsb]. now rewrite IH, orb_assoc.
Qed.

Lemma prefix_nil (s : string) : String.prefix EmptyString s = true.
Proof. now destruct s. Qed.

Lemma HasPrefix_slashes_app (s t : string) :
  strings.HasPrefix s "//" = false ->
  strings.HasPrefix (String.append s (String "%" t)) "//" = false.
Proof.
  unfold strings.HasPrefix. destruct s as [|c [|c2 s]]; intros H.
  - reflexivity.
  - rewrite append_cons, append_nil. cbn [String.prefix].
    destruct (ascii_dec "/" c); reflexivity.
  - rewrite !append_cons. cbn [String.prefix] in *.
    destruct (ascii_dec "/" c); [|reflexivity].
    destruct (ascii_dec "/" c2); [|reflexivity].
    now rewrite prefix_nil in H.
Qed.

Lemma unescape_check_bad_escape (s t : string) :
  lacks "%" s = true -> bad_escape t = true ->
  url.unescape_check (String.append s (String "%" t)) url.encodePath
  = Some "invalid URL escape".
Proof.
  intros Hs Ht. induction s as [|ch s IH].
  - rewrite append_nil. cbn [url.unescape_check]. change (Ascii.eqb "%" "%") with true.
    cbv iota. destruct t as [|h1 [|h2 t]]; try reflexivity.
    cbn [bad_escape] in Ht. now rewrite Ht.
  - cbn [lacks] in Hs. apply andb_prop in Hs as [Hch Hs].
    apply negb_true_iff in Hch. rewrite append_cons.
    cbn [url.unescape_check url.is_host_mode andb]. rewrite Hch. now apply IH.
Qed.

(** A uri with a [%] that does not start an escape of two hexadecimal
    digits is rejected: here the [%] stands in a path, between texts of
    printable ASCII bytes that hold no [:], [#], [?] or other [%]. *)
Theorem validateURI_rejects_bad_escape (dto : streamDto) (s t : string) :
  plain_text s = true -> plain_text t = true ->
  strings.HasPrefix s "//" = false ->
  bad_escape t = true ->
  validateURI dto (reader_of (encoded {| URI := String.append s (String "%" t) |}))
  = ({| URI := String.append s (String "%" t) |}, Some "Invalid URI").
Proof.
  intros Hs Ht Hprefix Hbad.
  destruct (plain_text_spec s Hs) as (Hs1 & Hs2 & Hs3 & Hs4 & Hs5 & Hs6).
  destruct (plain_text_spec t Ht) as (Ht1 & Ht2 & Ht3 & Ht4 & Ht5 & Ht6).
  rewrite validateURI_encoded.
  - unfold uri_error. rewrite Parse_path.
    + now rewrite unescape_check_bad_escape.
    + rewrite stringContainsCTLByte_app, Hs2. unfold url.stringContainsCTLByte in *.
      cbn [list_ascii_of_string existsb]. now rewrite Ht2.
    + rewrite lacks_app, Hs4. cbn [lacks]. now rewrite Ht4.
    + rewrite lacks_app, Hs5. cbn [lacks]. now rewrite Ht5.
    + rewrite lacks_app, Hs6. cbn [lacks]. now rewrite Ht6.
    + now apply HasPrefix_slashes_app.
  - rewrite ascii_only_app, Hs1. cbn [ascii_only]. now rewrite Ht1.
Qed.

Lemma validateURI_rejects_bad_escape_witness :
  validateURI zero_streamDto (reader_of (encoded {| URI := "/stream/cam1%2" |}))
  = ({| URI := "/stream/cam1%2" |}, Some "Invalid URI").
Proof.
  exact (validateURI_rejects_bad_escape zero_streamDto "/stream/cam1" "2"
           eq_refl eq_refl eq_refl eq_refl).
Defined.

(** ** The times of the sweeps *)

Section sweep_times.

Variable cleanUnused : Controller -> Controller.
Variable config : Specification.
Variable env : timing.
Variables (t0 : Z) (ctl : Controller).

Local Abbreviation after k := (cleaner_run cleanUnused config env (2 * k) (cleaner_start t0 ctl)).
Local Abbreviation D := (CleanupTime config).

(** What one more round adds to the state after [k] rounds. *)
Lemma cleaner_next_round (k : nat) :
  now (after k) = (t0 + rounds_time D env k)%Z
  /\ after (S k)
     = {| pc := AtAfter;
          now := (t0 + rounds_time D env (S k))%Z;
          round := S k;
          controllers := cleanUnused (controllers (after k));
          trace := trace (after k)
                   ++ [TimerSet (t0 + rounds_time D env k) D;
                       TimerFired (t0 + rounds_time D env k + Z.max 0 D + Z.of_N (lag env k));
                       SweepBegin (t0 + rounds_time D env k + Z.max 0 D + Z.of_N (lag env k));
                       SweepEnd (t0 + rounds_time D env (S k))] |}.
Proof.
  assert (Hnext : forall j, now (after j) = (t0 + rounds_time D env j)%Z ->
            after (S j)
            = {| pc := AtAfter;
                 now := (t0 + rounds_time D env (S j))%Z;
                 round := S j;
                 controllers := cleanUnused (controllers (after j));
                 trace := trace (after j)
                          ++ [TimerSet (t0 + rounds_time D env j) D;
                              TimerFired (t0 + rounds_time D env j + Z.max 0 D
                                          + Z.of_N (lag env j));
                              SweepBegin (t0 + rounds_time D env j + Z.max 0 D
                                          + Z.of_N (lag env j));
                              SweepEnd (t0 + rounds_time D env (S j))] |}).
  { intros j Hnow.
    destruct (cleaner_rounds cleanUnused config env j t0 ctl) as (Hpc & Hround & _).
    rewrite cleaner_run_2S, (cleaner_round cleanUnused config env _ Hpc).
    cbv zeta. rewrite Hround, Hnow. cbn [rounds_time].
    rewrite !Z.add_assoc. reflexivity. }
  assert (Hnow : forall j, now (after j) = (t0 + rounds_time D env j)%Z).
  { induction j as [|j IH]; [cbn; lia|]. now rewrite (Hnext j IH). }
  split; [apply Hnow|apply Hnext, Hnow].
Qed.

(** The events of a round stay where they are in the trace. *)
Lemma cleaner_trace_stable (k j i : nat) (e : event) :
  k <= j -> trace (after k) !! i = Some e -> trace (after j) !! i = Some e.
Proof.
  intros Hkj Hi. induction Hkj as [|j Hkj IH]; [exact Hi|].
  destruct (cleaner_next_round j) as [_ ->]. cbn [trace].
  apply lookup_app_l_Some, IH.
Qed.

Lemma rounds_time_lower (k : nat) : (Z.of_nat k * D <= rounds_time D env k)%Z.
Proof.
  induction k as [|k IH]; [reflexivity|].
  cbn [rounds_time]. rewrite Nat2Z.inj_succ, Z.mul_succ_l.
  pose proof (N2Z.is_nonneg (lag env k)). pose proof (N2Z.is_nonneg (sweep_time env k)).
  lia.
Qed.

End sweep_times.

(** The sweeps drift.  Sweep number [k], counted from [0], begins when the
    rounds before it have taken their time, the period has passed once
    more, at once when it is not positive, and the timer has fired, and it
    ends when its own time has passed as well: the begins of two sweeps in
    a row are a period, a timer lag and the time of a sweep apart, not a
    period.  It begins no earlier than [k + 1] periods after the cleaning
    process started. *)
Theorem sweeps_drift (cleanUnused : Controller -> Controller) (config : Specification)
    (env : timing) (t0 : Z) (k j : nat) :
  k < j ->
  trace (cleaner_run cleanUnused config env (2 * j) (GetRouter_started config t0))
    !! (4 * k + 2)
  = Some (SweepBegin (t0 + rounds_time (CleanupTime config) env k
                      + Z.max 0 (CleanupTime config) + Z.of_N (lag env k)))
  /\ trace (cleaner_run cleanUnused config env (2 * j) (GetRouter_started config t0))
       !! (4 * k + 3)
     = Some (SweepEnd (t0 + rounds_time (CleanupTime config) env (S k)))
  /\ (t0 + Z.of_nat (S k) * CleanupTime config
      <= t0 + rounds_time (CleanupTime config) env k
         + Z.max 0 (CleanupTime config) + Z.of_N (lag env k))%Z.
Proof.
  intros Hkj. unfold GetRouter_started.
  destruct (cleaner_rounds cleanUnused config env k t0 (snd (GetRouter config)))
    as (_ & _ & _ & _ & _ & Hlen).
  destruct (cleaner_next_round cleanUnused config env t0 (snd (GetRouter config)) k)
    as [_ Hnext].
  split; [|split].
  - apply (cleaner_trace_stable cleanUnused config env t0 _ (S k) j); [lia|].
    rewrite Hnext. cbn [trace]. rewrite lookup_app_r by lia.
    replace (4 * k + 2 - length _) with 2 by lia. reflexivity.
  - apply (cleaner_trace_stable cleanUnused config env t0 _ (S k) j); [lia|].
    rewrite Hnext. cbn [trace]. rewrite lookup_app_r by lia.
    replace (4 * k + 3 - length _) with 3 by lia. reflexivity.
  - pose proof (rounds_time_lower config env k).
    pose proof (N2Z.is_nonneg (lag env k)).
    rewrite Nat2Z.inj_succ, Z.mul_succ_l. lia.
Qed.

Lemma sweeps_drift_witness :
  trace (cleaner_run (fun ctl => ctl) example_spec example_timing (2 * 3)
           (GetRouter_started example_spec 0)) !! (4 * 1 + 2)
  = Some (SweepBegin 240007000000).
Proof.
  exact (proj1 (sweeps_drift (fun ctl => ctl) example_spec example_timing 0 1 3
                  ltac:(lia))).
Defined.

(** ** The error texts *)

Lemma append_inj_l (a b suffix : string) :
  String.append a suffix = String.append b suffix -> a = b.
Proof.
  revert b. induction a as [|c a IH]; intros [|d b] H.
  - reflexivity.
  - apply (f_equal String.length) in H.
    rewrite append_nil, append_cons in H. cbn [String.length] in H.
    rewrite length_append in H. lia.
  - apply (f_equal String.length) in H.
    rewrite append_nil, append_cons in H. cbn [String.length] in H.
    rewrite length_append in H. lia.
  - rewrite !append_cons in H. injection H as -> H. f_equal. now apply IH.
Qed.

(** The error for an unknown stream names the path and nothing else:
    two paths have the same text only when they are the same path, and no
    path has the text of [ErrStreamAlreadyActive]. *)
Theorem ErrNoStreamFn_names_the_path (path1 path2 : string) :
  (ErrNoStreamFn path1 = ErrNoStreamFn path2 -> path1 = path2)
  /\ ErrNoStreamFn path1 <> ErrStreamAlreadyActive.
Proof.
  unfold ErrNoStreamFn, ErrStreamAlreadyActive. split; [apply append_inj_l|].
  intros H. pose proof (f_equal String.length H) as Hlen.
  rewrite length_append in Hlen. cbn [String.length] in Hlen.
  destruct path1 as [|a [|b [|c path1]]]; cbn [String.length] in Hlen; try lia.
  discriminate H.
Qed.

(** ** The key over the lifetime of a session *)

(** The call of [determineHost] returns what the function of the path
    gives, and leaves the state as it found it. *)
Lemma Go_determineHost_run (path : string) (σ : Go.world) :
  Go.determineHost path σ = (determineHost path, σ).
Proof.
  unfold Go.determineHost, determineHost, mbind, mret, Go.call_bind, Go.call_ret, Go.index.
  destruct (1 <=? length (strings.Split path "/")); [|reflexivity].
  now destruct (strings.Split path "/" !! 1).
Qed.

Lemma determineHost_component (a h rest : string) :
  strings.Index a "/" = None -> strings.Index h "/" = None ->
  determineHost (String.append a (String "/" (String.append h (String "/" rest))))
  = Returns h.
Proof.
  intros Ha Hh. rewrite determineHost_Cut, (Index_slash_app a _ Ha), drop_bytes_app_slash.
  unfold strings.Cut. rewrite (Index_slash_app h rest Hh). cbn [fst].
  now rewrite take_bytes_app.
Qed.

(** C9. Key derivation is a function of the path alone.  Two calls of
    [determineHost] with equal paths return equal keys, or panic alike, in
    whatever states of the program they are made: the package-level
    variables, the streams held and the clock are not read, and the call
    leaves the state as it found it; what it returns is what the function
    [determineHost] of the path gives.  Over the lifetime of a session the
    key is stable as well: every path under the component of the session,
    whichever file it names and whenever it is asked for, derives that
    component. *)
Theorem determineHost_reads_only_its_path (path1 path2 : string) (σ1 σ2 : Go.world) :
  path1 = path2 ->
  fst (Go.determineHost path1 σ1) = fst (Go.determineHost path2 σ2)
  /\ snd (Go.determineHost path1 σ1) = σ1
  /\ snd (Go.determineHost path2 σ2) = σ2
  /\ fst (Go.determineHost path1 σ1) = determineHost path1
  /\ (forall a h file1 file2,
        strings.Index a "/" = None -> strings.Index h "/" = None ->
        fst (Go.determineHost
               (String.append a (String "/" (String.append h (String "/" file1)))) σ1)
        = Returns h
        /\ fst (Go.determineHost
                  (String.append a (String "/" (String.append h (String "/" file2)))) σ2)
           = Returns h).
Proof.
  intros ->. rewrite !Go_determineHost_run. cbn [fst snd].
  split; [reflexivity|]. split; [reflexivity|]. split; [reflexivity|].
  split; [reflexivity|].
  intros a h file1 file2 Ha Hh. rewrite !Go_determineHost_run. cbn [fst].
  split; now apply determineHost_component.
Qed.

Lemma determineHost_reads_only_its_path_witness :
  fst (Go.determineHost "/cam1/index.m3u8" world_at_start)
  = fst (Go.determineHost "/cam1/index.m3u8" world_later)
  /\ fst (Go.determineHost "/cam1/segment7.ts" world_later) = Returns "cam1".
Proof.
  split.
  - exact (proj1 (determineHost_reads_only_its_path "/cam1/index.m3u8" "/cam1/index.m3u8"
                    world_at_start world_later eq_refl)).
  - exact (proj2 (proj2 (proj2 (proj2 (proj2
      (determineHost_reads_only_its_path "/cam1/index.m3u8" "/cam1/index.m3u8"
         world_at_start world_later eq_refl))))
      EmptyString "cam1" "index.m3u8" "segment7.ts" eq_refl eq_refl)).
Defined.

(** ** The interval between two sweeps *)

(** C7, as the claim has it: the sweeps are a period apart.  With a period
    of two minutes and sweeps that take two minutes the first sweep begins
    two minutes after [GetRouter] and the second four minutes after the
    first. *)
Lemma sweeps_are_not_a_period_apart :
  trace (cleaner_run (fun ctl => ctl) example_spec slow_timing 4
           (GetRouter_started example_spec 0)) !! 2
  = Some (SweepBegin 120000000000)
  /\ trace (cleaner_run (fun ctl => ctl) example_spec slow_timing 4
              (GetRouter_started example_spec 0)) !! 6
     = Some (SweepBegin 360000000000)
  /\ (360000000000 - 120000000000 <> CleanupTime example_spec)%Z.
Proof. split; [reflexivity|]. split; [reflexivity|]. discriminate. Qed.

Section sweep_interval.

Variable cleanUnused : Controller -> Controller.
Variable config : Specification.
Variable env : timing.
Variable t0 : Z.

Local Abbreviation D := (CleanupTime config).
Local Abbreviation events j :=
  (trace (cleaner_run cleanUnused config env (2 * j) (GetRouter_started config t0))).

(** C7, amended. After [GetRouter] the cleaning process sweeps again and
    again, once after each wait: in [j] rounds it begins [j] sweeps, every
    timer is set to [CleanupTime config], and a timer that fires is
    followed at once by the beginning of one sweep.  The timer of the next
    round is set when the sweep has ended, so two sweeps in a row begin a
    period, the time of the first of them and the lag of the timer apart:
    at least a period, and a period only when the sweep took no time and
    the timer was on time. *)
Theorem sweep_after_each_wait (k j : nat) :
  S k < j ->
  sweeps_begun (events j) = j
  /\ (forall i a d, events j !! i = Some (TimerSet a d) -> d = D)
  /\ (forall i t, events j !! i = Some (TimerFired t) ->
                  events j !! S i = Some (SweepBegin t))
  /\ (exists b e b',
        events j !! (4 * k + 2) = Some (SweepBegin b)
        /\ events j !! (4 * k + 3) = Some (SweepEnd e)
        /\ events j !! (4 * k + 4) = Some (TimerSet e D)
        /\ events j !! (4 * k + 6) = Some (SweepBegin b')
        /\ e = (b + Z.of_N (sweep_time env k))%Z
        /\ b' = (e + Z.max 0 D + Z.of_N (lag env (S k)))%Z
        /\ (D <= b' - b)%Z
        /\ ((b' - b = D)%Z
            <-> sweep_time env k = 0%N /\ lag env (S k) = 0%N /\ (0 <= D)%Z)).
Proof.
  intros Hkj. unfold GetRouter_started.
  set (ctl := snd (GetRouter config)).
  destruct (cleaner_rounds cleanUnused config env j t0 ctl) as (Hpc & _ & _ & Hbegun & _ & _).
  destruct (cleaner_inv_run cleanUnused config env (2 * j) t0 ctl)
    as (_ & Hset & Hfired & _ & _ & _ & _).
  split; [exact Hbegun|]. split; [exact Hset|]. split.
  { intros i t H. destruct (Hfired i t H) as [H'|[Hloc _]]; [exact H'|congruence]. }
  destruct (cleaner_rounds cleanUnused config env k t0 ctl) as (_ & _ & _ & _ & _ & Hlen).
  destruct (cleaner_rounds cleanUnused config env (S k) t0 ctl)
    as (_ & _ & _ & _ & _ & Hlen').
  destruct (cleaner_next_round cleanUnused config env t0 ctl k) as [_ Hk].
  destruct (cleaner_next_round cleanUnused config env t0 ctl (S k)) as [_ HSk].
  exists (t0 + rounds_time D env k + Z.max 0 D + Z.of_N (lag env k))%Z,
         (t0 + rounds_time D env (S k))%Z,
         (t0 + rounds_time D env (S k) + Z.max 0 D + Z.of_N (lag env (S k)))%Z.
  split; [|split; [|split; [|split]]].
  - apply (cleaner_trace_stable cleanUnused config env t0 ctl (S k) j); [lia|].
    rewrite Hk. cbn [trace]. rewrite lookup_app_r by lia.
    replace (4 * k + 2 - length _) with 2 by lia. reflexivity.
  - apply (cleaner_trace_stable cleanUnused config env t0 ctl (S k) j); [lia|].
    rewrite Hk. cbn [trace]. rewrite lookup_app_r by lia.
    replace (4 * k + 3 - length _) with 3 by lia. reflexivity.
  - apply (cleaner_trace_stable cleanUnused config env t0 ctl (S (S k)) j); [lia|].
    rewrite HSk. cbn [trace]. rewrite lookup_app_r by lia.
    replace (4 * k + 4 - length _) with 0 by lia. reflexivity.
  - apply (cleaner_trace_stable cleanUnused config env t0 ctl (S (S k)) j); [lia|].
    rewrite HSk. cbn [trace]. rewrite lookup_app_r by lia.
    replace (4 * k + 6 - length _) with 2 by lia. reflexivity.
  - pose proof (N2Z.is_nonneg (lag env k)). pose proof (N2Z.is_nonneg (sweep_time env k)).
    pose proof (N2Z.is_nonneg (lag env (S k))).
    cbn [rounds_time]. split; [lia|]. split; [reflexivity|]. split; [lia|].
    split; [intros Heq; repeat split; lia|intros (Hs & Hl & Hd); lia].
Qed.

End sweep_interval.

Lemma sweep_after_each_wait_witness :
  sweeps_begun
    (trace (cleaner_run (fun ctl => ctl) example_spec example_timing (2 * 3)
              (GetRouter_started example_spec 0))) = 3.
Proof.
  exact (proj1 (sweep_after_each_wait (fun ctl => ctl) example_spec example_timing 0 1 3
                  ltac:(lia))).
Defined.

(** ** The answer to a Start on a key that has a session *)








Section session.

Variable restart : Stream -> Specification -> string -> Stream * option string.
Variables (w : http.ResponseWriter) (s : Stream) (spec : Specification) (dir : string).

Local Abbreviation handle := (handleAlreadyRunningStream restart w s spec dir).
Local Abbreviation seen := (handleAlreadyRunningStream_call restart w s spec dir).

Lemma call_response : response seen = fst handle /\ calls seen = snd handle.
Proof. unfold handleAlreadyRunningStream_call. now destruct handle. Qed.




End session.



